(** * arbfinder: the arbitrage scanner, the fetch orchestrator and the
      bankroll allocator

    A shallow embedding of [src/logic.py] and of the allocation code of
    [src/gui.py], with the properties of the specification stated and
    proved on it.

    Conventions of the embedding.
    - Python numbers are exact: an [int] is a [Z], a [float] is a rational
      [Q], and [/], [+], [*], [<] are the exact operations.  Rounding of
      IEEE doubles is not modelled.
    - A decoded JSON document is a [value]; a Python [dict] is an
      association list in insertion order with distinct keys.
    - An exception is a constructor of [exn]; code that may raise returns a
      [result].  A generator is the list of what it yields, closed by the
      exception that ends it, if any.
    - The outside world (the HTTP library, the clock, Python's formatting of
      values) is a record [env] of functions; the effects of the code on it
      (requests sent, clock reads, lines printed) are kept in a [world]. *)

From Stdlib Require Import ZArith QArith Qround Lqa Lia.
From Stdlib Require Import Bool List String Ascii DecimalString.
From Stdlib Require Import Permutation Sorted.
Import ListNotations.

Set Implicit Arguments.
Set Warnings "-register-all".

(* ================================================================== *)
(** * Python values, exceptions and containers *)
(* ================================================================== *)

Module Py.

Open Scope string_scope.

(** What [response.json()] returns: [None], [bool], [int], [float], [str],
    [list] and [dict] with string keys. *)
Inductive value : Type :=
| VNone
| VBool (b : bool)
| VInt (z : Z)
| VFloat (q : Q)
| VStr (s : string)
| VList (l : list value)
| VDict (d : list (string * value)).

(** A [requests.Response]: the status code, and the decoded body when the
    body is JSON ([None]: [response.json()] raises). *)
Record response : Type := { status_code : Z; body : option value }.

(** The exceptions the code raises or meets.  The three API exceptions are
    the classes of logic.py; they carry [args = (message, response)]. *)
Inductive exn : Type :=
| APIException (msg : string) (r : response)
| AuthenticationException (msg : string) (r : response)
| RateLimitException (msg : string) (r : response)
| RequestException (msg : string)
| JSONDecodeError (msg : string)
| KeyError (k : string)
| IndexError (msg : string)
| TypeError (msg : string)
| AttributeError (msg : string)
| ValueError (msg : string)
| ZeroDivisionError (msg : string).

Inductive result (A : Type) : Type :=
| Ok (a : A)
| Raise (e : exn).
Arguments Ok {A} a.
Arguments Raise {A} e.

Definition bind {A B} (r : result A) (k : A -> result B) : result B :=
  match r with
  | Ok a => k a
  | Raise e => Raise e
  end.

Declare Scope py_scope.
Delimit Scope py_scope with py.
Notation "x <- c ;; k" := (bind c (fun x => k))
  (at level 61, c at next level, right associativity) : py_scope.
Notation "' pat <- c ;; k" := (bind c (fun x => match x with pat => k end))
  (at level 61, pat pattern, c at next level, right associativity) : py_scope.

(** Monadic map over a list, left to right. *)
Fixpoint mapM {A B} (f : A -> result B) (l : list A) : result (list B) :=
  match l with
  | [] => Ok []
  | a :: l' =>
      match f a with
      | Raise e => Raise e
      | Ok b => match mapM f l' with
                | Raise e => Raise e
                | Ok bs => Ok (b :: bs)
                end
      end
  end.

(** ** Generators *)

(** A generator run to its end: the values yielded, then the exception that
    stopped it, if one did. *)
Record gen (A : Type) : Type := { yielded : list A; raised : option exn }.

Definition gen_empty {A} : gen A := {| yielded := []; raised := None |}.
Definition gen_raise {A} (e : exn) : gen A :=
  {| yielded := []; raised := Some e |}.
Definition gen_yield {A} (a : A) : gen A :=
  {| yielded := [a]; raised := None |}.

(** [g] followed by [h]: [h] runs only when [g] ended normally. *)
Definition gen_seq {A} (g h : gen A) : gen A :=
  match raised g with
  | Some e => g
  | None => {| yielded := yielded g ++ yielded h; raised := raised h |}
  end.

(** [for x in l: body(x)] inside a generator. *)
Fixpoint gen_for {A B} (l : list A) (body : A -> gen B) : gen B :=
  match l with
  | [] => gen_empty
  | a :: l' =>
      match raised (body a) with
      | Some e => body a
      | None =>
          let rest := gen_for l' body in
          {| yielded := yielded (body a) ++ yielded rest;
             raised := raised rest |}
      end
  end.

(** [list(g)]. *)
Definition list_of_gen {A} (g : gen A) : result (list A) :=
  match raised g with
  | Some e => Raise e
  | None => Ok (yielded g)
  end.

(** ** Truth, iteration, indexing *)

Definition Qzero (q : Q) : bool := Qeq_bool q 0.
Definition Qltb (a b : Q) : bool := negb (Qle_bool b a).

(** [bool(v)]. *)
Definition truthy (v : value) : bool :=
  match v with
  | VNone => false
  | VBool b => b
  | VInt z => negb (z =? 0)%Z
  | VFloat q => negb (Qzero q)
  | VStr s => negb (String.eqb s "")
  | VList l => match l with [] => false | _ => true end
  | VDict d => match d with [] => false | _ => true end
  end.

(** The number a value stands for in arithmetic and comparisons ([bool] is
    a subclass of [int]). *)
Definition as_number (v : value) : option Q :=
  match v with
  | VBool b => Some (if b then 1 else 0)
  | VInt z => Some (inject_Z z)
  | VFloat q => Some q
  | _ => None
  end.

(** [v == True]. *)
Definition eq_True (v : value) : bool :=
  match as_number v with
  | Some q => Qeq_bool q 1
  | None => false
  end.

Fixpoint chars (s : string) : list value :=
  match s with
  | EmptyString => []
  | String c s' => VStr (String c EmptyString) :: chars s'
  end.

(** [iter(v)], run to the end: the elements of a list, the keys of a dict,
    the characters of a string. *)
Definition py_iter (v : value) : result (list value) :=
  match v with
  | VList l => Ok l
  | VDict d => Ok (map (fun kv => VStr (fst kv)) d)
  | VStr s => Ok (chars s)
  | _ => Raise (TypeError "object is not iterable")
  end.

(** Lookup in a dict. *)
Fixpoint dict_get {V} (d : list (string * V)) (k : string) : option V :=
  match d with
  | [] => None
  | (k', v) :: d' => if String.eqb k' k then Some v else dict_get d' k
  end.

Definition dict_contains {V} (d : list (string * V)) (k : string) : bool :=
  match dict_get d k with Some _ => true | None => false end.

(** [d[k] = v]: the value is replaced where the key is, a new key goes to
    the end. *)
Fixpoint dict_set {V} (d : list (string * V)) (k : string) (v : V)
  : list (string * V) :=
  match d with
  | [] => [(k, v)]
  | (k', v') :: d' =>
      if String.eqb k' k then (k', v) :: d' else (k', v') :: dict_set d' k v
  end.

Definition dict_keys {V} (d : list (string * V)) : list string := map fst d.
Definition dict_values {V} (d : list (string * V)) : list V := map snd d.

(** [d[k]] on a dict of the program. *)
Definition dict_getitem {V} (d : list (string * V)) (k : string) : result V :=
  match dict_get d k with
  | Some v => Ok v
  | None => Raise (KeyError k)
  end.

(** [v[k]] with a string [k], on a decoded JSON value. *)
Definition getitem (v : value) (k : string) : result value :=
  match v with
  | VDict d => dict_getitem d k
  | VList _ => Raise (TypeError "list indices must be integers or slices, not str")
  | VStr _ => Raise (TypeError "string indices must be integers")
  | _ => Raise (TypeError "object is not subscriptable")
  end.

(** [v.get(k, default)]; only a dict has the method. *)
Definition get_method (v : value) (k : string) (default : value)
  : result value :=
  match v with
  | VDict d => Ok (match dict_get d k with Some x => x | None => default end)
  | _ => Raise (AttributeError "object has no attribute 'get'")
  end.

(** [v[0]]. *)
Definition getitem0 (v : value) : result value :=
  match v with
  | VList (x :: _) => Ok x
  | VList [] => Raise (IndexError "list index out of range")
  | VStr (String c _) => Ok (VStr (String c EmptyString))
  | VStr EmptyString => Raise (IndexError "string index out of range")
  | VDict _ => Raise (KeyError "0")
  | _ => Raise (TypeError "object is not subscriptable")
  end.

(** [l[i]] on a list of the program. *)
Definition list_getitem {A} (l : list A) (i : nat) : result A :=
  match nth_error l i with
  | Some a => Ok a
  | None => Raise (IndexError "list index out of range")
  end.

(** ** Strings *)

Definition lower_ascii (c : ascii) : ascii :=
  let n := nat_of_ascii c in
  if (65 <=? n)%nat && (n <=? 90)%nat then ascii_of_nat (n + 32) else c.

(** [s.lower()], on ASCII letters. *)
Fixpoint lower (s : string) : string :=
  match s with
  | EmptyString => EmptyString
  | String c s' => String (lower_ascii c) (lower s')
  end.

(** [pat in s] on strings. *)
Fixpoint contains (pat s : string) : bool :=
  if String.prefix pat s then true
  else match s with
       | EmptyString => false
       | String _ s' => contains pat s'
       end.

Definition str_of_Z (z : Z) : string := NilZero.string_of_int (Z.to_int z).

(** ** Numbers *)

(** [int(q)] of a float: rounding toward zero. *)
Definition Qtruncate (q : Q) : Z :=
  if Qle_bool 0 q then Qfloor q else Qceiling q.

(** [1 / x]. *)
Definition inverse (x : Q) : result Q :=
  if Qzero x then Raise (ZeroDivisionError "division by zero")
  else Ok (1 / x).

(** [a / b]. *)
Definition divide (a b : Q) : result Q :=
  if Qzero b then Raise (ZeroDivisionError "division by zero")
  else Ok (a / b).

(** [sum(l)]: from 0, left to right. *)
Definition sum (l : list Q) : Q := fold_left Qplus l 0.

(** ** Sorting and products *)

Section Sort.
Variable A : Type.
Variable key : A -> Q.

(** Insertion in a list that is descending by [key]: [x] goes before the
    first element whose key is not greater than its own. *)
Fixpoint insert_desc (x : A) (l : list A) : list A :=
  match l with
  | [] => [x]
  | y :: l' =>
      if Qltb (key x) (key y) then y :: insert_desc x l' else x :: y :: l'
  end.

(** [l.sort(key=key, reverse=True)]: the stable sort, descending; elements
    of equal key keep the order they had. *)
Definition sort_desc (l : list A) : list A := fold_right insert_desc [] l.
End Sort.

(** [itertools.product] of the lists [ls], as a list: the last list cycles
    fastest. *)
Fixpoint product {A} (ls : list (list A)) : list (list A) :=
  match ls with
  | [] => [[]]
  | l :: ls' =>
      flat_map (fun a => map (fun rest => a :: rest) (product ls')) l
  end.

End Py.

(* ================================================================== *)
(** * src/logic.py *)
(* ================================================================== *)

Module Logic.
Import Py.
Open Scope string_scope.
Open Scope py_scope.

(** ** The outside world *)

Definition params : Type := list (string * string).

(** What the program calls and does not define.
    - [requests_get url params]: [requests.get], which answers with a
      response or raises (connection error, timeout);
    - [quote]: [requests.utils.quote];
    - [clock n]: what the [n]-th call of [time.time()] returns;
    - [repr]: Python's text for a value that is not a string, [None], a
      [bool] or an [int];
    - [int_of_str]: [int(s)] on a string. *)
Record env : Type := {
  requests_get : string -> params -> result response;
  quote : string -> string;
  clock : nat -> Q;
  repr : value -> string;
  int_of_str : string -> result Z
}.

(** The effects of a run: how often the clock was read, the requests sent
    and the lines printed, oldest first. *)
Record world : Type := {
  clock_reads : nat;
  requests : list (string * params);
  stdout : list string
}.

Definition world0 : world :=
  {| clock_reads := 0; requests := []; stdout := [] |}.

(** A computation with effects that may raise; the effects done before an
    exception stay. *)
Definition M (A : Type) : Type := world -> result A * world.

Definition ret {A} (a : A) : M A := fun w => (Ok a, w).
Definition raise {A} (e : exn) : M A := fun w => (Raise e, w).
Definition lift {A} (r : result A) : M A := fun w => (r, w).
Definition bindM {A B} (c : M A) (k : A -> M B) : M B :=
  fun w => match c w with
           | (Ok a, w') => k a w'
           | (Raise e, w') => (Raise e, w')
           end.

Declare Scope io_scope.
Delimit Scope io_scope with io.
Notation "x <~ c ;; k" := (bindM c (fun x => k))
  (at level 61, c at next level, right associativity) : io_scope.

Definition time_time (E : env) (w : world) : Q * world :=
  (clock E (clock_reads w),
   {| clock_reads := S (clock_reads w);
      requests := requests w;
      stdout := stdout w |}).

Definition print (line : string) : M unit :=
  fun w => (Ok tt,
            {| clock_reads := clock_reads w;
               requests := requests w;
               stdout := (stdout w ++ [line])%list |}).

Definition http_get (E : env) (url : string) (q : params) : M response :=
  fun w => (requests_get E url q,
            {| clock_reads := clock_reads w;
               requests := (requests w ++ [(url, q)])%list;
               stdout := stdout w |}).

(** [str(v)], as an f-string formats a value. *)
Definition format_value (E : env) (v : value) : string :=
  match v with
  | VStr s => s
  | VNone => "None"
  | VBool true => "True"
  | VBool false => "False"
  | VInt z => str_of_Z z
  | _ => repr E v
  end.

(** [int(v)]. *)
Definition py_int (E : env) (v : value) : result Z :=
  match v with
  | VInt z => Ok z
  | VBool b => Ok (if b then 1 else 0)%Z
  | VFloat q => Ok (Qtruncate q)
  | VStr s => int_of_str E s
  | _ => Raise (TypeError "int() argument must be a string, a bytes-like object or a real number")
  end.

(** ** Responses and the API exceptions *)

Definition BASE_URL : string := "api.the-odds-api.com/v4".
Definition PROTOCOL : string := "https://".

(** [response.ok]: the status is not a 4xx or 5xx. *)
Definition ok (r : response) : bool :=
  negb ((400 <=? status_code r)%Z && (status_code r <? 600)%Z).

(** [response.json()]. *)
Definition json (r : response) : result value :=
  match body r with
  | Some v => Ok v
  | None => Raise (JSONDecodeError "Expecting value")
  end.

(** [APIException.__str__]: it reads the message out of the response. *)
Definition api_str (E : env) (msg : string) (r : response) : result string :=
  j <- json r ;;
  m <- getitem j "message" ;;
  Ok ("('" ++ msg ++ "', '" ++ format_value E m ++ "')").

(** [str(e)]. *)
Definition exn_str (E : env) (e : exn) : result string :=
  match e with
  | APIException msg r => api_str E msg r
  | AuthenticationException msg r => api_str E msg r
  | RateLimitException msg r => api_str E msg r
  | KeyError k => Ok ("'" ++ k ++ "'")
  | RequestException msg | JSONDecodeError msg | IndexError msg
  | TypeError msg | AttributeError msg | ValueError msg
  | ZeroDivisionError msg => Ok msg
  end.

(** [handle_faulty_response] always raises; this is what it raises. *)
Definition handle_faulty_response (r : response) : exn :=
  if (status_code r =? 401)%Z then
    AuthenticationException
      "Failed to authenticate with the API. Is the API key valid?" r
  else if (status_code r =? 429)%Z then
    RateLimitException "Encountered API rate limit." r
  else
    APIException
      ("Unknown issue arose while trying to access the API (Status code: "
       ++ str_of_Z (status_code r) ++ ").") r.

(** ** get_sports *)

Definition popular_sports : list string :=
  ["soccer"; "basketball"; "baseball"; "football"; "tennis"; "hockey"].

(** [item["key"].lower()] needs a string. *)
Definition as_str (v : value) : result string :=
  match v with
  | VStr s => Ok s
  | _ => Raise (AttributeError "object has no attribute 'lower'")
  end.

(** The loop of [get_sports] over the decoded listing. *)
Fixpoint get_sports_loop (items : list value) (sports : list string)
  : result (list string) :=
  match items with
  | [] => Ok sports
  | item :: rest =>
      has_outrights <- get_method item "has_outrights" VNone ;;
      skip <- (if eq_True has_outrights
               then active <- get_method item "active" (VBool false) ;;
                    Ok (negb (truthy active))
               else Ok false) ;;
      if (skip : bool) then get_sports_loop rest sports
      else
        k <- getitem item "key" ;;
        key <- as_str k ;;
        if existsb (fun pop => contains pop (lower key)) popular_sports
        then get_sports_loop rest (sports ++ [key])%list
        else get_sports_loop rest sports
  end.

Definition get_sports (E : env) (key : string) : M (list string) :=
  let url := BASE_URL ++ "/sports/" in
  let escaped_url := PROTOCOL ++ quote E url in
  let querystring := [("apiKey", key)] in
  (response <~ http_get E escaped_url querystring ;;
   if negb (ok response) then raise (handle_faulty_response response)
   else lift (j <- json response ;;
              items <- py_iter j ;;
              get_sports_loop items []))%io.

(** ** get_data and fetch_sport_data *)

Definition default_region : string := "eu".

Definition get_data (E : env) (key sport region : string) : M value :=
  let url := BASE_URL ++ "/sports/" ++ sport ++ "/odds/" in
  let escaped_url := PROTOCOL ++ quote E url in
  let querystring :=
    [("apiKey", key); ("regions", region);
     ("oddsFormat", "decimal"); ("dateFormat", "unix")] in
  (response <~ http_get E escaped_url querystring ;;
   if negb (ok response) then raise (handle_faulty_response response)
   else lift (json response))%io.

(** [try: return get_data(...) except Exception as e: print(...); return []].
    The handler formats [str(e)]; what that raises leaves the function. *)
Definition fetch_sport_data (E : env) (args : string * string * string)
  : M value :=
  let '(key, sport, region) := args in
  fun w =>
    match get_data E key sport region w with
    | (Ok v, w') => (Ok v, w')
    | (Raise e, w') =>
        match exn_str E e with
        | Raise e' => (Raise e', w')
        | Ok s =>
            (line <~ print ("Error fetching data for " ++ sport ++ ": " ++ s) ;;
             ret (VList []))%io w'
        end
    end.

(** ** process_data *)

(** One price a bookmaker quotes in its first market: [outcome["name"]],
    [bookmaker["title"]], [outcome["price"]]. *)
Record Quote : Type := {
  outcome_name : string;
  bookie_name : value;
  odd : Q
}.

(** An entry of a candidate list: the tuple [(bookie_name, odd)]. *)
Definition candidate : Type := (value * Q)%type.

(** The dictionaries yielded by [process_data]. *)
Record Opportunity : Type := {
  match_name : string;
  match_start_time : Z;
  hours_to_start : Q;
  league : value;
  best_outcome_odds : list (string * candidate);
  total_implied_odds : Q
}.

(** What the body of the loop has read of a match before it looks at the
    bookmakers. *)
Record Header : Type := {
  h_match_name : string;
  h_start_time : Z;
  h_time_to_start : Q;
  h_league : value
}.

(** The outcome name is used as a dictionary key and the price in the
    sort and in [1/odd].  The embedding is typed here: a name is a string
    and a price is a number ([int], [float] or [bool]), as the odds API
    documents them, and a field of another JSON type is reported as a
    [TypeError] where it is read.  (Python accepts any hashable name, and
    meets a price that is not a number only where it compares or divides
    it.) *)
Definition as_name (v : value) : result string :=
  match v with
  | VStr s => Ok s
  | _ => Raise (TypeError "outcome name is not a string")
  end.

Definition as_price (v : value) : result Q :=
  match as_number v with
  | Some q => Ok q
  | None => Raise (TypeError "unsupported operand type(s) for /")
  end.

(** The reads of the inner loop (lines 115-122) on one outcome. *)
Definition read_outcome (bookie : value) (outcome : value) : result Quote :=
  n <- getitem outcome "name" ;;
  p <- getitem outcome "price" ;;
  name <- as_name n ;;
  price <- as_price p ;;
  Ok {| outcome_name := name; bookie_name := bookie; odd := price |}.

(** The reads of the loop over [match["bookmakers"]] (lines 106-122), in
    the order the loop makes them: the title, the markets, and the
    outcomes of the first market when there is one. *)
Fixpoint read_bookmakers (bookmakers : list value) : result (list Quote) :=
  match bookmakers with
  | [] => Ok []
  | bookmaker :: rest =>
      bookie <- getitem bookmaker "title" ;;
      markets <- getitem bookmaker "markets" ;;
      qs <- (if negb (truthy markets) then Ok []
             else market <- getitem0 markets ;;
                  outcomes <- getitem market "outcomes" ;;
                  l <- py_iter outcomes ;;
                  mapM (read_outcome bookie) l) ;;
      qs' <- read_bookmakers rest ;;
      Ok (qs ++ qs')%list
  end.

Definition read_quotes (bookmakers : value) : result (list Quote) :=
  l <- py_iter bookmakers ;;
  read_bookmakers l.

(** [outcomes_data]: outcome name to candidate list. *)
Definition outcomes_dict : Type := list (string * list candidate).

(** Lines 119-122 for one quote. *)
Definition add_quote (outcomes_data : outcomes_dict) (q : Quote)
  : outcomes_dict :=
  let outcomes_data :=
    if negb (dict_contains outcomes_data (outcome_name q))
    then dict_set outcomes_data (outcome_name q) []
    else outcomes_data in
  match dict_get outcomes_data (outcome_name q) with
  | Some l =>
      dict_set outcomes_data (outcome_name q)
        (l ++ [(bookie_name q, odd q)])%list
  | None => outcomes_data
  end.

Definition collect (qs : list Quote) : outcomes_dict :=
  fold_left add_quote qs [].

(** Lines 125-126: every candidate list sorted by price, best first. *)
Definition sort_all (outcomes_data : outcomes_dict) : outcomes_dict :=
  map (fun kv => (fst kv, sort_desc (@snd value Q) (snd kv))) outcomes_data.

(** Line 134: the top price of every outcome that has a candidate. *)
Fixpoint best_prices (outcomes_data : outcomes_dict) (names : list string)
    (best_odds : list (string * Q)) : result (list (string * Q)) :=
  match names with
  | [] => Ok best_odds
  | name :: rest =>
      l <- dict_getitem outcomes_data name ;;
      match l with
      | [] => best_prices outcomes_data rest best_odds
      | c :: _ => best_prices outcomes_data rest (dict_set best_odds name (snd c))
      end
  end.

(** [sum(1/odd for odd in prices)]. *)
Definition implied_total (prices : list Q) : result Q :=
  inv <- mapM inverse prices ;;
  Ok (sum inv).

(** Lines 142-146: with more than 3 outcomes, every list longer than 2 is
    cut to its first 2 entries. *)
Definition cap (outcomes_data : outcomes_dict) : outcomes_dict :=
  map (fun kv => (fst kv,
                  if (2 <? List.length (snd kv))%nat then firstn 2 (snd kv)
                  else snd kv)) outcomes_data.

(** Line 156: [{outcome_names[i]: combination[i] for i in range(n)}]. *)
Fixpoint zip_dict (names : list string) (combination : list candidate)
    (idx : list nat) (best_odds : list (string * candidate))
  : result (list (string * candidate)) :=
  match idx with
  | [] => Ok best_odds
  | i :: rest =>
      name <- list_getitem names i ;;
      c <- list_getitem combination i ;;
      zip_dict names combination rest (dict_set best_odds name c)
  end.

(** Line 162. *)
Definition is_arbitrage (cutoff total : Q) : bool :=
  Qltb total 1 && Qltb 0 total && Qle_bool cutoff (1 - total).

(** Lines 155-170: one combination. *)
Definition evaluate (h : Header) (outcome_names : list string) (cutoff : Q)
    (combination : list candidate) : gen Opportunity :=
  match (best_odds <- zip_dict outcome_names combination
                        (seq 0 (List.length outcome_names)) [] ;;
         total <- implied_total (map (@snd value Q) (dict_values best_odds)) ;;
         Ok (best_odds, total)) with
  | Raise e => gen_raise e
  | Ok (best_odds, total_implied_odds) =>
      if is_arbitrage cutoff total_implied_odds then
        gen_yield {| match_name := h_match_name h;
                     match_start_time := h_start_time h;
                     hours_to_start := h_time_to_start h;
                     league := h_league h;
                     best_outcome_odds := best_odds;
                     total_implied_odds := total_implied_odds |}
      else gen_empty
  end.

(** Lines 141-152: the candidate lists that are enumerated. *)
Definition bookmaker_options (outcomes_data : outcomes_dict)
    (outcome_names : list string) : result (list (list candidate)) :=
  let outcomes_data :=
    if (3 <? List.length outcome_names)%nat then cap outcomes_data
    else outcomes_data in
  mapM (dict_getitem outcomes_data) outcome_names.

(** Lines 134-135: the implied odds of the top prices. *)
Definition best_total (outcomes_data : outcomes_dict)
    (outcome_names : list string) : result Q :=
  best_odds <- best_prices outcomes_data outcome_names [] ;;
  implied_total (dict_values best_odds).

(** Lines 124-170: the body of the loop once the quotes of the match are
    read. *)
Definition process_match (h : Header) (qs : list Quote) (cutoff : Q)
  : gen Opportunity :=
  let outcomes_data := sort_all (collect qs) in
  let outcome_names := dict_keys outcomes_data in
  if (List.length outcome_names <? 2)%nat then gen_empty
  else
    match best_total outcomes_data outcome_names with
    | Raise e => gen_raise e
    | Ok total_implied_odds =>
        if Qle_bool 1 total_implied_odds then gen_empty
        else
          match bookmaker_options outcomes_data outcome_names with
          | Raise e => gen_raise e
          | Ok options =>
              gen_for (product options) (evaluate h outcome_names cutoff)
          end
    end.

(** Lines 95-101 and the reads of 106-122: one iteration of the loop on a
    decoded record. *)
Definition process_record (E : env) (include_started_matches : bool)
    (cutoff : Q) (m : value) (w : world) : gen Opportunity * world :=
  match (c <- getitem m "commence_time" ;; py_int E c) with
  | Raise e => (gen_raise e, w)
  | Ok start_time =>
      let '(started, w) :=
        if negb include_started_matches
        then let '(now, w) := time_time E w in
             (Qltb (inject_Z start_time) now, w)
        else (false, w) in
      if (started : bool) then (gen_empty, w)
      else
        match (home <- getitem m "home_team" ;;
               away <- getitem m "away_team" ;;
               Ok (home, away)) with
        | Raise e => (gen_raise e, w)
        | Ok (home, away) =>
            let match_name :=
              format_value E home ++ " v. " ++ format_value E away in
            let '(now, w) := time_time E w in
            let time_to_start := (inject_Z start_time - now) / 3600 in
            match (league <- getitem m "sport_key" ;;
                   bookmakers <- getitem m "bookmakers" ;;
                   qs <- read_quotes bookmakers ;;
                   Ok (league, qs)) with
            | Raise e => (gen_raise e, w)
            | Ok (league, qs) =>
                (process_match {| h_match_name := match_name;
                                  h_start_time := start_time;
                                  h_time_to_start := time_to_start;
                                  h_league := league |} qs cutoff, w)
            end
        end
  end.

Fixpoint process_records (E : env) (include_started_matches : bool)
    (cutoff : Q) (ms : list value) (w : world) : gen Opportunity * world :=
  match ms with
  | [] => (gen_empty, w)
  | m :: rest =>
      let '(g, w) := process_record E include_started_matches cutoff m w in
      match raised g with
      | Some _ => (g, w)
      | None =>
          let '(g', w) :=
            process_records E include_started_matches cutoff rest w in
          (gen_seq g g', w)
      end
  end.

(** The defaults of the signature. *)
Definition default_include_started_matches : bool := true.
Definition default_cutoff : Q := 0.

(** [process_data(matches, include_started_matches, cutoff)]; [matches] is
    itself lazy and may end in an exception, which surfaces once its
    entries are used up.  The progress bar [tqdm] puts around [matches]
    passes the entries through and is left out. *)
Definition process_data (E : env) (matches : gen value)
    (include_started_matches : bool) (cutoff : Q) (w : world)
  : gen Opportunity * world :=
  let '(g, w) :=
    process_records E include_started_matches cutoff (yielded matches) w in
  (gen_seq g {| yielded := []; raised := raised matches |}, w).

(** ** get_arbitrage_opportunities *)

(** Every task of [executor.map] runs, whatever the others do; the effects
    are recorded in the order of the arguments (the pool runs up to 5 tasks
    at a time, and their effects interleave in an order the program does
    not fix). *)
Fixpoint run_all {A B} (f : A -> M B) (args : list A) (w : world)
  : list (result B) * world :=
  match args with
  | [] => ([], w)
  | a :: rest =>
      let '(r, w) := f a w in
      let '(rs, w) := run_all f rest w in
      (r :: rs, w)
  end.

(** [list(executor.map(f, args))]: the results in the order of the
    arguments; the first task that raised, in that order, raises here. *)
Definition executor_map {A B} (f : A -> M B) (args : list A) : M (list B) :=
  fun w =>
    let '(rs, w) := run_all f args w in
    (mapM (fun r => r) rs, w).

(** [chain.from_iterable(results)]. *)
Fixpoint chain_from_iterable (results : list value) : gen value :=
  match results with
  | [] => gen_empty
  | r :: rest =>
      match py_iter r with
      | Raise e => gen_raise e
      | Ok l =>
          let g := chain_from_iterable rest in
          {| yielded := (l ++ yielded g)%list; raised := raised g |}
      end
  end.

(** [filter(pred, g)]. *)
Definition gen_filter {A} (pred : A -> bool) (g : gen A) : gen A :=
  {| yielded := filter pred (yielded g); raised := raised g |}.

(** [lambda x: isinstance(x, dict) and "message" not in x]. *)
Definition not_message (x : value) : bool :=
  match x with
  | VDict d => negb (dict_contains d "message")
  | _ => false
  end.

Definition get_arbitrage_opportunities (E : env) (key region : string)
    (cutoff : Q) (selected_sports : option (list string))
  : M (list Opportunity) :=
  (sports <~ match selected_sports with
             | None | Some [] => get_sports E key
             | Some sports => ret sports
             end ;;
   let args := map (fun sport => (key, sport, region)) sports in
   results <~ executor_map (fetch_sport_data E) args ;;
   fun w =>
     let data := chain_from_iterable results in
     let data := gen_filter not_message data in
     let '(arbitrage_opportunities, w) :=
       process_data E data default_include_started_matches cutoff w in
     (list_of_gen arbitrage_opportunities, w))%io.

End Logic.

(* ================================================================== *)
(** * src/gui.py: the bankroll allocation *)
(* ================================================================== *)

Module Gui.
Import Py.
Import Logic.
Open Scope string_scope.
Open Scope py_scope.

(** An entry of [allocations]. *)
Record Allocation : Type := {
  percentage : Q;
  amount : Q;
  bookmaker : value;
  alloc_odd : Q
}.

(** The loop of [calculate_bankroll_allocation] over [odds_dict.items()],
    with its two accumulators. *)
Fixpoint allocation_loop (items : list (string * candidate))
    (total_implied_odds bankroll : Q)
    (allocations : list (string * Allocation)) (total_percentage : Q)
  : result (list (string * Allocation) * Q) :=
  match items with
  | [] => Ok (allocations, total_percentage)
  | (outcome, (bookmaker, odd)) :: rest =>
      inv <- inverse odd ;;
      stake_percentage <- divide inv total_implied_odds ;;
      allocation_loop rest total_implied_odds bankroll
        (dict_set allocations outcome
           {| percentage := stake_percentage * 100;
              amount := bankroll * stake_percentage;
              bookmaker := bookmaker;
              alloc_odd := odd |})
        (total_percentage + stake_percentage * 100)
  end.

(** [calculate_bankroll_allocation(odds_dict, total_implied_odds, bankroll)];
    [format_2f] is the [:.2f] formatting of the warning. *)
Definition calculate_bankroll_allocation (format_2f : Q -> string)
    (odds_dict : list (string * candidate)) (total_implied_odds bankroll : Q)
  : M (list (string * Allocation)) :=
  fun w =>
    match allocation_loop odds_dict total_implied_odds bankroll [] 0 with
    | Raise e => (Raise e, w)
    | Ok (allocations, total_percentage) =>
        if negb (Qle_bool (995 # 10) total_percentage
                 && Qle_bool total_percentage (1005 # 10))
        then (u <~ print ("Warning: Total allocation percentage is "
                          ++ format_2f total_percentage ++ "%, not 100%") ;;
              ret allocations)%io w
        else (Ok allocations, w)
    end.

(** Lines 369-375 of [display_results]: the profit shown for an
    opportunity. *)
Definition profit_percentage (arb : Opportunity) : Q :=
  (1 - total_implied_odds arb) * 100.

Definition profit_amount (bankroll : Q) (arb : Opportunity) : Q :=
  bankroll * (1 - total_implied_odds arb).

(** ** The worker threads *)

(** The signals of [WorkerSignals], with what they carry. *)
Inductive signal : Type :=
| sig_finished
| sig_error (msg : string)
| sig_result (opportunities : list Opportunity)
| sig_progress (n : Z)
| sig_status (msg : string)
| sig_sports_loaded (sports : list string).

(** [ArbitrageWorker.run]: the signals emitted, in order, and the exception
    that leaves the method, if one does.  The [except] clause formats
    [str(e)]; what that raises is raised again once [finally] has run. *)
Definition ArbitrageWorker_run (E : env) (key region : string) (cutoff : Q)
    (selected_sports : option (list string)) (w : world)
  : (list signal * option exn) * world :=
  match get_arbitrage_opportunities E key region cutoff selected_sports w with
  | (Ok opportunities, w) =>
      ([sig_status "Getting available sports..."; sig_result opportunities; sig_finished],
       None, w)
  | (Raise e, w) =>
      match exn_str E e with
      | Ok s =>
          ([sig_status "Getting available sports..."; sig_error s; sig_finished], None, w)
      | Raise e' =>
          ([sig_status "Getting available sports..."; sig_finished], Some e', w)
      end
  end.

(** [SportsLoaderWorker.run]. *)
Definition SportsLoaderWorker_run (E : env) (key : string) (w : world)
  : (list signal * option exn) * world :=
  match get_sports E key w with
  | (Ok sports, w) =>
      ([sig_status "Loading available sports..."; sig_sports_loaded sports;
        sig_status "Sports loaded"; sig_finished], None, w)
  | (Raise e, w) =>
      match exn_str E e with
      | Ok s =>
          ([sig_status "Loading available sports..."; sig_error s;
            sig_status "Sports loaded"; sig_finished], None, w)
      | Raise e' =>
          ([sig_status "Loading available sports...";
            sig_status "Sports loaded"; sig_finished], Some e', w)
      end
  end.

(** ** find_opportunities *)



(** ** The colour of the profit cell (lines 419-421) *)

Definition intensity (arb : Opportunity) : Z :=
  Z.min (Qtruncate (profit_percentage arb * 25)) 150.

(** The arguments of [QColor]: red, green, blue. *)
Definition profit_colour (arb : Opportunity) : Z * Z * Z :=
  (255 - intensity arb, 255, 255 - intensity arb)%Z.

(** ** export_results *)

(** An opportunity as the window holds it: the dict of the scanner, to
    which [display_results] and [export_results] add the key
    ["bankroll_allocations"]. *)
Record Arb : Type := {
  arb : Opportunity;
  bankroll_allocations : option (list (string * Allocation))
}.

(** The number formats of the f-strings: [:.1f], [:.2f], [:.4f]. *)
Record formats : Type := {
  format_1f : Q -> string;
  format_2f : Q -> string;
  format_4f : Q -> string
}.

Definition allocate (F : formats) (bankroll : Q) (a : Arb)
  : M (list (string * Allocation)) :=
  calculate_bankroll_allocation (format_2f F)
    (best_outcome_odds (arb a)) (total_implied_odds (arb a)) bankroll.

(** Lines 347-356 of [display_results]: with the box checked, the
    allocations of every opportunity are computed and stored in it. *)
Fixpoint display_allocations (F : formats) (bankroll : Q) (arbs : list Arb)
  : M (list Arb) :=
  match arbs with
  | [] => ret []
  | a :: rest =>
      (allocations <~ allocate F bankroll a ;;
       rest' <~ display_allocations F bankroll rest ;;
       ret ({| arb := arb a; bankroll_allocations := Some allocations |}
            :: rest'))%io
  end.

(** Lines 481-488 of [export_results]: the allocations are computed for the
    opportunities that hold none. *)
Fixpoint ensure_allocations (F : formats) (bankroll : Q) (arbs : list Arb)
  : M (list Arb) :=
  match arbs with
  | [] => ret []
  | a :: rest =>
      (a' <~ match bankroll_allocations a with
             | Some _ => ret a
             | None =>
                 allocations <~ allocate F bankroll a ;;
                 ret {| arb := arb a; bankroll_allocations := Some allocations |}
             end ;;
       rest' <~ ensure_allocations F bankroll rest ;;
       ret (a' :: rest'))%io
  end.

(** [s.endswith(suffix)]. *)
Fixpoint endswith (s suffix : string) : bool :=
  if String.eqb s suffix then true
  else match s with
       | EmptyString => false
       | String _ s' => endswith s' suffix
       end.

(** Lines 490-494: the extension added to the path. *)
Definition export_path (filter_used file_path : string) : string :=
  if contains "json" filter_used && negb (endswith (lower file_path) ".json")
  then file_path ++ ".json"
  else if contains "csv" filter_used && negb (endswith (lower file_path) ".csv")
  then file_path ++ ".csv"
  else file_path.

Inductive file_format : Type := JSON | CSV.

(** Lines 496-541: what is written to the path. *)
Definition export_format (file_path : string) : file_format :=
  if endswith file_path ".json" then JSON
  else if endswith file_path ".csv" then CSV
  else JSON.

(** Lines 504-513: the header of the CSV file. *)
Definition csv_header (show_allocation : bool) (opportunities : list Arb)
  : list string :=
  List.app
    ["Match"; "League"; "Hours to Start"; "Total Implied Odds"; "Profit %"]
    (if show_allocation then
       match opportunities with
       | first_arb :: _ =>
           flat_map (fun outcome =>
                       [outcome ++ " Bookmaker"; outcome ++ " Odds";
                        outcome ++ " Stake %"; outcome ++ " Stake $"])
                    (dict_keys (best_outcome_odds (arb first_arb)))
       | [] => []
       end
     else []).

(** Lines 518-541: the row of one opportunity. *)
Definition csv_row (F : formats) (show_allocation : bool) (a : Arb)
  : list value :=
  let profit := (1 - total_implied_odds (arb a)) * 100 in
  List.app
    [ VStr (match_name (arb a));
      league (arb a);
      VStr (format_1f F (hours_to_start (arb a)));
      VStr (format_4f F (total_implied_odds (arb a)));
      VStr (format_2f F profit ++ "%") ]
    (match bankroll_allocations a with
     | Some allocations =>
         if show_allocation then
           flat_map
             (fun outcome =>
                match dict_get allocations outcome with
                | Some alloc =>
                    [ bookmaker alloc;
                      VStr (format_2f F (alloc_odd alloc));
                      VStr (format_2f F (percentage alloc) ++ "%");
                      VStr ("$" ++ format_2f F (amount alloc)) ]
                | None => [VStr "N/A"; VStr "N/A"; VStr "N/A"; VStr "N/A"]
                end)
             (dict_keys (best_outcome_odds (arb a)))
         else []
     | None => []
     end).

End Gui.

(* ================================================================== *)
(** * Notions of the specification *)
(* ================================================================== *)

Import Py Logic Gui.
Open Scope Q_scope.

(** The distinct elements of a list, in the order they first occur. *)
Fixpoint first_seen (l : list string) : list string :=
  match l with
  | [] => []
  | x :: l' => x :: filter (fun y => negb (String.eqb x y)) (first_seen l')
  end.

(** The outcome names of a match: the distinct names its quotes carry. *)
Definition outcome_names_of (qs : list Quote) : list string :=
  first_seen (map outcome_name qs).

(** The candidates of one outcome, in the order the bookmakers list them. *)
Definition candidates_of (qs : list Quote) (name : string) : list candidate :=
  map (fun q => (bookie_name q, odd q))
      (filter (fun q => String.eqb (outcome_name q) name) qs).

(** The total implied odds of a combination: the sum of [1/price] over the
    chosen candidates. *)
Definition implied (combination : list candidate) : Q :=
  sum (map (fun c => 1 / snd c) combination).

(** The opportunity that stands for a combination. *)
Definition opportunity (h : Header) (names : list string)
    (combination : list candidate) : Opportunity :=
  {| match_name := h_match_name h;
     match_start_time := h_start_time h;
     hours_to_start := h_time_to_start h;
     league := h_league h;
     best_outcome_odds := combine names combination;
     total_implied_odds := implied combination |}.

(** The combinations the loop of line 154 goes through for a match: none
    when the match is skipped at line 131 or 139. *)
Definition combinations (qs : list Quote) : result (list (list candidate)) :=
  let outcomes_data := sort_all (collect qs) in
  let outcome_names := dict_keys outcomes_data in
  if (List.length outcome_names <? 2)%nat then Ok []
  else
    match best_total outcomes_data outcome_names with
    | Raise e => Raise e
    | Ok total =>
        if Qle_bool 1 total then Ok []
        else
          match bookmaker_options outcomes_data outcome_names with
          | Raise e => Raise e
          | Ok options => Ok (product options)
          end
    end.

(** The dict with the keys [ns], in that order, and the value [f n] at
    [n]. *)
Definition tabulate {V} (f : string -> V) (ns : list string)
  : list (string * V) :=
  map (fun n => (n, f n)) ns.

(** The candidate lists of a match as the specification describes them:
    per outcome name, in the order the names are first seen, the
    candidates in the order of the bookmakers; and the same with every
    list sorted from the best price down. *)
Definition grouped (qs : list Quote) : outcomes_dict :=
  tabulate (candidates_of qs) (outcome_names_of qs).

Definition ranked (qs : list Quote) (name : string) : list candidate :=
  sort_desc (@snd value Q) (candidates_of qs name).

Definition ranking (qs : list Quote) : outcomes_dict :=
  tabulate (ranked qs) (outcome_names_of qs).

(** A list that goes down by [key]: no element has a greater key than one
    before it. *)
Definition descending {A} (key : A -> Q) (l : list A) : Prop :=
  StronglySorted (fun a b => key b <= key a) l.

(** The top price of a candidate list. *)
Definition top_price (l : list candidate) : Q :=
  match l with
  | c :: _ => snd c
  | [] => 0
  end.

(** The best case of a match: the implied odds of the top price of every
    outcome. *)
Definition best_case (qs : list Quote) : result Q :=
  implied_total (map (fun n => top_price (ranked qs n)) (outcome_names_of qs)).

(** The candidate lists that are enumerated: the two best of every outcome
    when the match has more than 3 outcomes, all of them otherwise. *)
Definition enumerated (qs : list Quote) (name : string) : list candidate :=
  if (3 <? List.length (outcome_names_of qs))%nat then firstn 2 (ranked qs name)
  else ranked qs name.

(** ** Concrete inputs *)

(** A header, and the quotes of a match with two outcomes and two
    bookmakers: X quotes 2.50 on A and 1.40 on B, Y quotes 2.10 on A and
    2.20 on B. *)
Definition example_header : Header :=
  {| h_match_name := "Home v. Away";
     h_start_time := 500;
     h_time_to_start := (-1) # 2;
     h_league := VStr "soccer_epl" |}.

Definition example_quotes : list Quote :=
  [ {| outcome_name := "A"; bookie_name := VStr "X"; odd := 25 # 10 |};
    {| outcome_name := "B"; bookie_name := VStr "X"; odd := 14 # 10 |};
    {| outcome_name := "A"; bookie_name := VStr "Y"; odd := 21 # 10 |};
    {| outcome_name := "B"; bookie_name := VStr "Y"; odd := 22 # 10 |} ].


(** The quotes of a match with a single outcome name. *)
Definition example_quotes_single : list Quote :=
  [ {| outcome_name := "A"; bookie_name := VStr "X"; odd := 25 # 10 |};
    {| outcome_name := "A"; bookie_name := VStr "Y"; odd := 30 # 10 |} ].

(** The quotes of a match with four outcomes and three bookmakers. *)
Definition example_quotes_four : list Quote :=
  flat_map
    (fun b : string * (Q * Q * Q * Q) =>
       let '(title, (pa, pb, pc, pd)) := b in
       [ {| outcome_name := "A"; bookie_name := VStr title; odd := pa |};
         {| outcome_name := "B"; bookie_name := VStr title; odd := pb |};
         {| outcome_name := "C"; bookie_name := VStr title; odd := pc |};
         {| outcome_name := "D"; bookie_name := VStr title; odd := pd |} ])
    [ ("X", (50 # 10, 41 # 10, 47 # 10, 39 # 10));
      ("Y", (45 # 10, 52 # 10, 40 # 10, 44 # 10));
      ("Z", (48 # 10, 49 # 10, 51 # 10, 38 # 10)) ]%string.

(** The chosen candidates of an opportunity on a two-outcome match: 2.50
    on A with X and 2.20 on B with Y. *)
Definition example_odds : list (string * candidate) :=
  [ ("A", (VStr "X", 25 # 10)); ("B", (VStr "Y", 22 # 10)) ]%string.

(** The decoded bookmakers of a match, quoted by X and Y as in
    [example_quotes]; the second market of X is not read. *)
Definition example_bookmakers : value :=
  VList
    [ VDict
        [ ("title", VStr "X");
          ("markets",
           VList
             [ VDict
                 [ ("key", VStr "h2h");
                   ("outcomes",
                    VList
                      [ VDict [("name", VStr "A"); ("price", VFloat (25 # 10))];
                        VDict [("name", VStr "B"); ("price", VFloat (14 # 10))] ]) ];
               VDict [("key", VStr "spreads"); ("outcomes", VNone)] ]) ];
      VDict
        [ ("title", VStr "Y");
          ("markets",
           VList
             [ VDict
                 [ ("key", VStr "h2h");
                   ("outcomes",
                    VList
                      [ VDict [("name", VStr "A"); ("price", VFloat (21 # 10))];
                        VDict [("name", VStr "B"); ("price", VFloat (22 # 10))] ]) ] ]) ] ]%string.

(** A decoded match record that started at 500. *)
Definition example_record : value :=
  VDict
    [ ("id", VStr "e1");
      ("sport_key", VStr "soccer_epl");
      ("commence_time", VInt 500);
      ("home_team", VStr "Home");
      ("away_team", VStr "Away");
      ("bookmakers", example_bookmakers) ]%string.

(** An entry that is a dict, has no ["message"] key and none of the fields
    of a match. *)
Definition example_stray : value :=
  VDict [("error", VStr "quota")]%string.

(** A world outside: the listing has three sports; the odds of
    [soccer_epl] are [example_record] and an error envelope; the odds
    request of [tennis_wta] is answered by a gateway with status 502 and a
    body that is not JSON; any other request fails to connect.  The clock
    stands at 1000. *)
Definition example_env : env :=
  {| requests_get := fun url _ =>
       if String.eqb url "https://api.the-odds-api.com/v4/sports/" then
         Ok {| status_code := 200;
               body := Some (VList
                 [ VDict [("key", VStr "soccer_epl"); ("active", VBool true);
                          ("has_outrights", VBool false)];
                   VDict [("key", VStr "cricket_ipl"); ("active", VBool true);
                          ("has_outrights", VBool false)];
                   VDict [("key", VStr "tennis_wta"); ("active", VBool true);
                          ("has_outrights", VBool false)] ]) |}
       else if String.eqb url
                 "https://api.the-odds-api.com/v4/sports/soccer_epl/odds/" then
         Ok {| status_code := 200;
               body := Some (VList
                 [ example_record; VDict [("message", VStr "notice")] ]) |}
       else if String.eqb url
                 "https://api.the-odds-api.com/v4/sports/tennis_wta/odds/" then
         Ok {| status_code := 502; body := None |}
       else Raise (RequestException "connection refused");
     quote := fun s => s;
     clock := fun _ => 1000;
     repr := fun _ => "?";
     int_of_str := fun _ => Raise (ValueError "invalid literal for int()") |}%string.



(** The two requests the program sends: the listing of the sports and the
    odds of one sport. *)
Definition sports_request (E : env) (key : string) : string * params :=
  (PROTOCOL ++ quote E (BASE_URL ++ "/sports/"), [("apiKey", key)])%string.

Definition odds_request (E : env) (key region sport : string)
  : string * params :=
  (PROTOCOL ++ quote E (BASE_URL ++ "/sports/" ++ sport ++ "/odds/"),
   [("apiKey", key); ("regions", region);
    ("oddsFormat", "decimal"); ("dateFormat", "unix")])%string.

(** The entries handed to the scanner for the results of the fetches. *)
Definition scanned_entries (results : list value) : gen value :=
  gen_filter not_message (chain_from_iterable results).

(** What [get_arbitrage_opportunities] does once the sports are known
    (lines 192-207). *)
Definition fetch_and_scan (E : env) (key region : string) (cutoff : Q)
    (sports : list string) : M (list Opportunity) :=
  fun w =>
    let '(rs, w) :=
      run_all (fetch_sport_data E)
              (map (fun sport => (key, sport, region)) sports) w in
    match mapM (fun r => r) rs with
    | Raise e => (Raise e, w)
    | Ok results =>
        let '(g, w) :=
          process_data E (scanned_entries results) true cutoff w in
        (list_of_gen g, w)
    end.

(** What fetching one sport gives; [requests_get] answers a request the
    same way whatever was done before. *)
Definition fetch_result (E : env) (key region sport : string) : result value :=
  fst (fetch_sport_data E (key, sport, region) world0).

(** The allocation the specification gives for a chosen candidate: the
    stake fraction is [(1/price) / total]. *)
Definition stake_fraction (total price : Q) : Q := (1 / price) / total.

Definition allocation_of (total bankroll : Q) (c : candidate) : Allocation :=
  {| percentage := stake_fraction total (snd c) * 100;
     amount := bankroll * stake_fraction total (snd c);
     bookmaker := fst c;
     alloc_odd := snd c |}.

(** What a bet pays when its outcome wins, what all bets cost, and the
    difference. *)
Definition payout (a : Allocation) : Q := amount a * alloc_odd a.

Definition total_staked (allocations : list (string * Allocation)) : Q :=
  sum (map (fun kv => amount (snd kv)) allocations).

Definition net_profit (allocations : list (string * Allocation))
    (a : Allocation) : Q :=
  payout a - total_staked allocations.

(* ================================================================== *)
(** * Inputs and notions for the further properties *)
(* ================================================================== *)

(** A first market, and a bookmaker whose second market is not even a
    dict. *)
Definition example_market : value :=
  VDict [("outcomes",
          VList [VDict [("name", VStr "A"); ("price", VInt 2)]])]%string.

Definition example_two_markets : value :=
  VDict [("title", VStr "X");
         ("markets", VList [example_market; VStr "not a market"])]%string.


(** The response an API exception carries. *)
Definition exn_response (e : exn) : option response :=
  match e with
  | APIException _ r | AuthenticationException _ r | RateLimitException _ r =>
      Some r
  | _ => None
  end.

Definition is_authentication (e : exn) : bool :=
  match e with AuthenticationException _ _ => true | _ => false end.

Definition is_rate_limit (e : exn) : bool :=
  match e with RateLimitException _ _ => true | _ => false end.

(** The tests [get_sports] makes on an item of the listing: skipped when
    it has outrights only and is not active; popular when its key, in
    lower case, contains one of the popular sports. *)
Definition skipped (d : list (string * value)) : bool :=
  eq_True (match dict_get d "has_outrights" with Some v => v | None => VNone end)
  && negb (truthy (match dict_get d "active" with
                   | Some v => v
                   | None => VBool false
                   end)).

Definition popular (key : string) : bool :=
  existsb (fun pop => contains pop (lower key)) popular_sports.

(** A listing with an inactive outrights-only sport, a sport that is not
    popular and one whose key is in capitals. *)
Definition example_listing : list value :=
  [ VDict [("key", VStr "soccer_world_cup_winner"); ("active", VBool false);
           ("has_outrights", VBool true)];
    VDict [("key", VStr "cricket_ipl"); ("active", VBool true)];
    VDict [("key", VStr "Basketball_NBA"); ("active", VBool true);
           ("has_outrights", VBool false)] ]%string.


(** The key [get_sports] keeps of an item of the listing, if it keeps
    one. *)
Definition selected_key (item : value) : list string :=
  match item with
  | VDict d =>
      if skipped d then []
      else match dict_get d "key" with
           | Some (VStr k) => if popular k then [k] else []
           | _ => []
           end
  | _ => []
  end.


(** Number formats that stand for [:.1f], [:.2f] and [:.4f], and an
    opportunity as the scan hands it to the window: it holds no
    allocations yet. *)
Definition example_formats : formats :=
  {| format_1f := fun _ => "0.0"%string;
     format_2f := fun _ => "0.00"%string;
     format_4f := fun _ => "0.0000"%string |}.

Definition example_arb : Arb :=
  {| arb := opportunity example_header ["A"; "B"]%string
              [(VStr "X", 25 # 10); (VStr "Y", 22 # 10)];
     bankroll_allocations := None |}.

(** A computation, and a generator, that raise no exception of the API
    classes: what they raise does not read a response when it is
    formatted. *)
Definition raises_plain {A} (r : result A) : Prop :=
  forall e, r = Raise e -> exn_response e = None.

Definition stops_plain {A} (g : gen A) : Prop :=
  forall e, raised g = Some e -> exn_response e = None.


(** The test against the cutoff alone: [(1 - total_implied_odds) >= cutoff]. *)
Definition meets (cutoff : Q) (o : Opportunity) : bool :=
  Qle_bool cutoff (1 - total_implied_odds o).


(* ================================================================== *)
(** * Facts about the containers *)
(* ================================================================== *)

Section DictFacts.
Variable V : Type.
Implicit Types (d : list (string * V)) (k : string) (v : V).
Implicit Types (f g : string -> V).

Lemma dict_get_none_iff d k : dict_get d k = None <-> ~ In k (dict_keys d).
Proof.
  induction d as [|[k' v'] d IH]; simpl.
  - tauto.
  - destruct (String.eqb_spec k' k) as [->|Hne].
    + split; [discriminate | intros H; exfalso; apply H; now left].
    + rewrite IH. split.
      * intros H [Heq|Hin]; [now apply Hne | now apply H].
      * intros H Hin. apply H. now right.
Qed.

Lemma dict_get_in d k v : dict_get d k = Some v -> In (k, v) d.
Proof.
  induction d as [|[k' v'] d IH]; simpl; [discriminate|].
  destruct (String.eqb_spec k' k) as [->|Hne].
  - intros [= ->]. now left.
  - intros H. right. now apply IH.
Qed.

Lemma dict_get_nodup d k v :
  NoDup (dict_keys d) -> In (k, v) d -> dict_get d k = Some v.
Proof.
  induction d as [|[k' v'] d IH]; simpl; [tauto|].
  intros Hnd [Heq|Hin].
  - injection Heq as -> ->. now rewrite String.eqb_refl.
  - inversion Hnd as [|? ? Hnotin Hnd']; subst.
    destruct (String.eqb_spec k' k) as [->|Hne].
    + exfalso. apply Hnotin. change (In k (map fst d)).
      apply in_map_iff. now exists (k, v).
    + now apply IH.
Qed.

Lemma dict_set_new d k v :
  ~ In k (dict_keys d) -> dict_set d k v = (d ++ [(k, v)])%list.
Proof.
  induction d as [|[k' v'] d IH]; simpl; [reflexivity|].
  intros H. destruct (String.eqb_spec k' k) as [->|Hne].
  - exfalso. apply H. now left.
  - rewrite IH; [reflexivity|]. intros Hin. apply H. now right.
Qed.

Lemma tabulate_keys f ns : dict_keys (tabulate f ns) = ns.
Proof.
  unfold dict_keys, tabulate. rewrite map_map. simpl. apply map_id.
Qed.

Lemma tabulate_values f ns : dict_values (tabulate f ns) = map f ns.
Proof.
  unfold dict_values, tabulate. now rewrite map_map.
Qed.

Lemma tabulate_get_in f ns k :
  In k ns -> dict_get (tabulate f ns) k = Some (f k).
Proof.
  induction ns as [|n ns IH]; simpl; [tauto|].
  destruct (String.eqb_spec n k) as [->|Hne]; [reflexivity|].
  intros [Heq|Hin]; [contradiction | now apply IH].
Qed.

Lemma tabulate_get_notin f ns k :
  ~ In k ns -> dict_get (tabulate f ns) k = None.
Proof.
  intros H. apply dict_get_none_iff. now rewrite tabulate_keys.
Qed.

Lemma tabulate_ext f g ns :
  (forall n, In n ns -> f n = g n) -> tabulate f ns = tabulate g ns.
Proof.
  intros H. unfold tabulate. apply map_ext_in. intros n Hn. now rewrite H.
Qed.

Lemma tabulate_set_in f ns k v :
  NoDup ns -> In k ns ->
  dict_set (tabulate f ns) k v
  = tabulate (fun n => if String.eqb n k then v else f n) ns.
Proof.
  induction ns as [|n ns IH]; simpl; [tauto|].
  intros Hnd Hin. inversion Hnd as [|? ? Hnotin Hnd']; subst.
  destruct (String.eqb_spec n k) as [->|Hne].
  - f_equal. apply tabulate_ext. intros m Hm.
    destruct (String.eqb_spec m k) as [->|]; [contradiction | reflexivity].
  - f_equal. destruct Hin as [Heq|Hin]; [contradiction|]. now apply IH.
Qed.
End DictFacts.

Section FirstSeen.
Lemma first_seen_in (l : list string) x : In x (first_seen l) <-> In x l.
Proof.
  induction l as [|a l IH]; simpl; [tauto|].
  rewrite filter_In, IH.
  destruct (String.eqb_spec a x) as [->|Hne]; simpl.
  - tauto.
  - split; [tauto|]. intros [H|H]; [contradiction | tauto].
Qed.

Lemma first_seen_nodup (l : list string) : NoDup (first_seen l).
Proof.
  induction l as [|a l IH]; simpl; constructor.
  - rewrite filter_In, String.eqb_refl. simpl. intros [_ H]. discriminate.
  - now apply NoDup_filter.
Qed.

Lemma first_seen_snoc (l : list string) x :
  first_seen (l ++ [x])
  = if in_dec string_dec x l then first_seen l
    else (first_seen l ++ [x])%list.
Proof.
  induction l as [|a l IH]; simpl; [reflexivity|].
  rewrite IH. destruct (string_dec a x) as [->|Hne].
  - destruct (in_dec string_dec x l) as [Hin|Hnotin]; [reflexivity|].
    rewrite filter_app. simpl. rewrite String.eqb_refl. simpl.
    now rewrite app_nil_r.
  - destruct (in_dec string_dec x l) as [Hin|Hnotin]; [reflexivity|].
    rewrite filter_app. simpl.
    destruct (String.eqb_spec a x) as [->|_]; [contradiction | reflexivity].
Qed.
End FirstSeen.

(* ================================================================== *)
(** * The candidate lists of a match *)
(* ================================================================== *)

Section Collect.
Implicit Types (qs : list Quote) (q : Quote) (n : string).

Lemma candidates_of_snoc qs q n :
  candidates_of (qs ++ [q]) n
  = (candidates_of qs n
     ++ if String.eqb (outcome_name q) n then [(bookie_name q, odd q)]
        else [])%list.
Proof.
  unfold candidates_of. rewrite filter_app, map_app. simpl.
  now destruct (String.eqb (outcome_name q) n).
Qed.

Lemma candidates_of_in qs n c :
  In c (candidates_of qs n) <->
  In {| outcome_name := n; bookie_name := fst c; odd := snd c |} qs.
Proof.
  unfold candidates_of. rewrite in_map_iff. split.
  - intros [q [<- Hq]]. apply filter_In in Hq as [Hin Hn].
    apply String.eqb_eq in Hn. subst n. simpl. now destruct q.
  - intros H. eexists. split; [|apply filter_In; split; [exact H|]].
    + simpl. now destruct c.
    + simpl. apply String.eqb_refl.
Qed.

Lemma candidates_of_nonempty qs n :
  In n (outcome_names_of qs) -> candidates_of qs n <> [].
Proof.
  unfold outcome_names_of. rewrite first_seen_in, in_map_iff.
  intros [q [<- Hq]] Hnil.
  assert (H : In (bookie_name q, odd q) (candidates_of qs (outcome_name q))).
  { apply candidates_of_in. simpl. now destruct q. }
  rewrite Hnil in H. contradiction.
Qed.

Lemma candidates_of_unseen qs n :
  ~ In n (map outcome_name qs) -> candidates_of qs n = [].
Proof.
  intros H. destruct (candidates_of qs n) as [|c l] eqn:Hc; [reflexivity|].
  exfalso. apply H. apply in_map_iff.
  exists {| outcome_name := n; bookie_name := fst c; odd := snd c |}.
  split; [reflexivity|]. apply candidates_of_in. rewrite Hc. now left.
Qed.

Lemma add_quote_grouped qs q : add_quote (grouped qs) q = grouped (qs ++ [q]).
Proof.
  unfold add_quote, grouped, outcome_names_of, dict_contains.
  rewrite map_app. simpl. rewrite first_seen_snoc.
  set (k := outcome_name q). set (ns := first_seen (map outcome_name qs)).
  assert (Hnd : NoDup ns) by apply first_seen_nodup.
  destruct (in_dec string_dec k (map outcome_name qs)) as [Hin|Hnotin].
  - assert (Hk : In k ns) by now apply first_seen_in.
    rewrite (tabulate_get_in _ _ _ Hk). simpl.
    rewrite (tabulate_get_in _ _ _ Hk).
    rewrite tabulate_set_in by assumption.
    apply tabulate_ext. intros n Hn. rewrite candidates_of_snoc. fold k.
    destruct (String.eqb_spec n k) as [->|Hne].
    + now rewrite String.eqb_refl.
    + destruct (String.eqb_spec k n) as [->|_]; [contradiction|].
      now rewrite app_nil_r.
  - assert (Hk : ~ In k ns).
    { intros H. apply Hnotin. exact (proj1 (first_seen_in _ _) H). }
    rewrite (tabulate_get_notin _ _ _ Hk). simpl.
    rewrite dict_set_new by now rewrite tabulate_keys.
    assert (Hget : dict_get (tabulate (candidates_of qs) ns ++ [(k, [])]) k
                   = Some (@nil candidate)).
    { apply dict_get_nodup; [|apply in_or_app; right; now left].
      unfold dict_keys. rewrite map_app. fold (dict_keys (tabulate (candidates_of qs) ns)).
      rewrite tabulate_keys. simpl.
      apply NoDup_app; [assumption | repeat constructor; intros [] |].
      intros a Ha [<-|[]]. contradiction. }
    rewrite Hget. simpl.
    unfold tabulate at 2. rewrite map_app. simpl.
    rewrite candidates_of_snoc. fold k. rewrite String.eqb_refl.
    rewrite (candidates_of_unseen _ _ Hnotin). simpl.
    assert (Hset : forall (d : outcomes_dict) v v',
               ~ In k (dict_keys d) ->
               dict_set (d ++ [(k, v)]) k v' = (d ++ [(k, v')])%list).
    { induction d as [|[k' x] d IH]; simpl; intros v v' Hd.
      - now rewrite String.eqb_refl.
      - destruct (String.eqb_spec k' k) as [->|Hne].
        + exfalso. apply Hd. now left.
        + rewrite IH; [reflexivity|]. intros H. apply Hd. now right. }
    rewrite Hset by now rewrite tabulate_keys.
    f_equal. apply tabulate_ext. intros n Hn. rewrite candidates_of_snoc.
    fold k. destruct (String.eqb_spec k n) as [->|_]; [contradiction|].
    now rewrite app_nil_r.
Qed.
Lemma collect_grouped qs : collect qs = grouped qs.
Proof.
  unfold collect.
  assert (H : forall pre, fold_left add_quote qs (grouped pre)
                          = grouped (pre ++ qs)).
  { induction qs as [|q qs IH]; intros pre; simpl.
    - now rewrite app_nil_r.
    - rewrite add_quote_grouped, IH, <- app_assoc. reflexivity. }
  exact (H []).
Qed.

Lemma sort_all_collect qs : sort_all (collect qs) = ranking qs.
Proof.
  rewrite collect_grouped. unfold sort_all, grouped, ranking, tabulate.
  now rewrite map_map.
Qed.

Lemma outcome_names_nodup qs : NoDup (outcome_names_of qs).
Proof. apply first_seen_nodup. Qed.

Lemma ranking_keys qs : dict_keys (ranking qs) = outcome_names_of qs.
Proof. apply tabulate_keys. Qed.

Lemma ranking_get qs n :
  In n (outcome_names_of qs) -> dict_get (ranking qs) n = Some (ranked qs n).
Proof. apply tabulate_get_in. Qed.
End Collect.

(* ================================================================== *)
(** * Sorting, sums and products *)
(* ================================================================== *)

Lemma Qltb_lt (a b : Q) : Qltb a b = true <-> a < b.
Proof.
  unfold Qltb. rewrite negb_true_iff. split.
  - intros H. apply Qnot_le_lt. intros Hle.
    apply Qle_bool_iff in Hle. congruence.
  - intros H. destruct (Qle_bool b a) eqn:E; [|reflexivity].
    apply Qle_bool_iff in E. exfalso. now apply (Qlt_not_le a b).
Qed.

Lemma Qltb_ge (a b : Q) : Qltb a b = false <-> b <= a.
Proof.
  unfold Qltb. rewrite negb_false_iff. apply Qle_bool_iff.
Qed.

Lemma Qzero_iff (q : Q) : Qzero q = true <-> q == 0.
Proof. apply Qeq_bool_iff. Qed.

Lemma Qzero_false (q : Q) : Qzero q = false <-> ~ q == 0.
Proof.
  rewrite <- Qzero_iff. destruct (Qzero q); split; congruence.
Qed.

Section SortFacts.
Variable A : Type.
Variable key : A -> Q.

Lemma insert_desc_perm x l : Permutation (insert_desc key x l) (x :: l).
Proof.
  induction l as [|y l IH]; simpl; [reflexivity|].
  destruct (Qltb (key x) (key y)); [|reflexivity].
  rewrite IH. apply perm_swap.
Qed.

Lemma sort_desc_perm l : Permutation (sort_desc key l) l.
Proof.
  induction l as [|x l IH]; simpl; [reflexivity|].
  rewrite insert_desc_perm. now constructor.
Qed.

Lemma sort_desc_in l x : In x (sort_desc key l) <-> In x l.
Proof.
  split; apply Permutation_in;
    [apply sort_desc_perm | symmetry; apply sort_desc_perm].
Qed.

Lemma sort_desc_length l : List.length (sort_desc key l) = List.length l.
Proof. apply Permutation_length, sort_desc_perm. Qed.

Lemma insert_desc_sorted x l : descending key l -> descending key (insert_desc key x l).
Proof.
  unfold descending. induction 1 as [|y l Hl IH Hy]; simpl.
  - repeat constructor.
  - destruct (Qltb (key x) (key y)) eqn:E.
    + constructor; [assumption|].
      apply Forall_forall. intros z Hz.
      apply (Permutation_in _ (insert_desc_perm x l)) in Hz.
      destruct Hz as [<-|Hz].
      * apply Qltb_lt in E. now apply Qlt_le_weak.
      * rewrite Forall_forall in Hy. now apply Hy.
    + apply Qltb_ge in E. constructor; [now constructor|].
      constructor; [assumption|].
      rewrite Forall_forall in Hy |- *. intros z Hz.
      apply Qle_trans with (key y); [now apply Hy | assumption].
Qed.

Lemma sort_desc_sorted l : descending key (sort_desc key l).
Proof.
  induction l as [|x l IH]; simpl; [constructor|].
  now apply insert_desc_sorted.
Qed.

End SortFacts.

Section SumFacts.
Lemma fold_left_Qplus (l : list Q) (a : Q) :
  fold_left Qplus l a == a + fold_left Qplus l 0.
Proof.
  revert a. induction l as [|x l IH]; intros a; simpl.
  - ring.
  - rewrite (IH (a + x)), (IH (0 + x)). ring.
Qed.

Lemma sum_nil : sum [] = 0.
Proof. reflexivity. Qed.

Lemma sum_cons (x : Q) (l : list Q) : sum (x :: l) == x + sum l.
Proof.
  unfold sum. simpl. rewrite fold_left_Qplus. ring.
Qed.


Lemma sum_scale (k : Q) (l : list Q) :
  sum (map (fun x => k * x) l) == k * sum l.
Proof.
  induction l as [|x l IH]; simpl.
  - unfold sum. simpl. ring.
  - rewrite !sum_cons, IH. ring.
Qed.
End SumFacts.

Section ProductFacts.
Variable A : Type.

Lemma product_in (ls : list (list A)) (c : list A) :
  In c (product ls) <-> Forall2 (fun x l => In x l) c ls.
Proof.
  revert c. induction ls as [|l ls IH]; intros c; simpl.
  - split.
    + intros [<-|[]]. constructor.
    + intros H. inversion H. now left.
  - rewrite in_flat_map. split.
    + intros [a [Ha Hc]]. apply in_map_iff in Hc as [rest [<- Hrest]].
      constructor; [assumption | now apply IH].
    + intros H. inversion H as [|a l0 rest ls0 Ha Hrest]; subst.
      exists a. split; [assumption|]. apply in_map_iff.
      exists rest. split; [reflexivity | now apply IH].
Qed.

Lemma product_in_length (ls : list (list A)) (c : list A) :
  In c (product ls) -> List.length c = List.length ls.
Proof.
  intros H. apply product_in in H. now apply Forall2_length in H.
Qed.

Lemma product_length_le (ls : list (list A)) (b : nat) :
  Forall (fun l => (List.length l <= b)%nat) ls ->
  (List.length (product ls) <= b ^ List.length ls)%nat.
Proof.
  induction 1 as [|l ls Hl _ IH]; simpl; [lia|].
  rewrite length_flat_map.
  assert (H : forall l0 : list A,
             (list_sum (map (fun a => List.length
                 (map (fun rest => a :: rest) (product ls))) l0)
              = List.length l0 * List.length (product ls))%nat).
  { induction l0 as [|a l0 IH0]; simpl; [reflexivity|].
    rewrite IH0, length_map. reflexivity. }
  rewrite H. apply Nat.mul_le_mono; assumption.
Qed.
End ProductFacts.

Section MonadFacts.
Lemma mapM_ok {A B} (f : A -> result B) (g : A -> B) (l : list A) :
  (forall a, In a l -> f a = Ok (g a)) -> mapM f l = Ok (map g l).
Proof.
  induction l as [|a l IH]; intros H; simpl; [reflexivity|].
  rewrite (H a) by now left. rewrite IH; [reflexivity|].
  intros b Hb. apply H. now right.
Qed.

Lemma mapM_inv {A B} (f : A -> result B) (l : list A) (bs : list B) :
  mapM f l = Ok bs -> Forall2 (fun a b => f a = Ok b) l bs.
Proof.
  revert bs. induction l as [|a l IH]; intros bs; simpl.
  - intros [= <-]. constructor.
  - destruct (f a) as [b|e] eqn:Ha; [|discriminate].
    destruct (mapM f l) as [bs'|e]; [|discriminate].
    intros [= <-]. constructor; [assumption | now apply IH].
Qed.

Lemma inverse_ok (x : Q) : ~ x == 0 -> inverse x = Ok (1 / x).
Proof.
  intros H. unfold inverse. apply Qzero_false in H. now rewrite H.
Qed.

Lemma inverse_inv (x y : Q) : inverse x = Ok y -> ~ x == 0 /\ y = 1 / x.
Proof.
  unfold inverse. destruct (Qzero x) eqn:E; [discriminate|].
  intros [= <-]. split; [now apply Qzero_false | reflexivity].
Qed.

Lemma divide_ok (a b : Q) : ~ b == 0 -> divide a b = Ok (a / b).
Proof.
  intros H. unfold divide. apply Qzero_false in H. now rewrite H.
Qed.


Lemma mapM_inverse_inv (prices inv : list Q) :
  mapM inverse prices = Ok inv ->
  Forall (fun p => ~ p == 0) prices /\ inv = map (fun p => 1 / p) prices.
Proof.
  intros E. apply mapM_inv in E.
  induction E as [|p y prices inv Hp _ [IH1 IH2]]; simpl.
  - split; [constructor | reflexivity].
  - apply inverse_inv in Hp as [Hp ->].
    split; [now constructor | now f_equal].
Qed.

Lemma implied_total_inv (prices : list Q) (t : Q) :
  implied_total prices = Ok t ->
  Forall (fun p => ~ p == 0) prices /\ t = sum (map (fun p => 1 / p) prices).
Proof.
  unfold implied_total. destruct (mapM inverse prices) as [inv|e] eqn:E;
    simpl; [|discriminate].
  intros [= <-]. apply mapM_inverse_inv in E as [H ->]. now split.
Qed.
End MonadFacts.

Section GenFacts.
Variables A B : Type.

Lemma gen_for_in (l : list A) (body : A -> gen B) (b : B) :
  In b (yielded (gen_for l body)) ->
  exists a, In a l /\ In b (yielded (body a)).
Proof.
  induction l as [|a l IH]; simpl; [tauto|].
  destruct (raised (body a)) eqn:E.
  - intros H. exists a. split; [now left | assumption].
  - simpl. intros H. apply in_app_or in H as [H|H].
    + exists a. split; [now left | assumption].
    + destruct (IH H) as [a' [Ha' Hb]]. exists a'. split; [now right | assumption].
Qed.

End GenFacts.

(* ================================================================== *)
(** * The steps of process_match *)
(* ================================================================== *)

Section ScanSteps.
Implicit Types (qs : list Quote) (names : list string).

Lemma combine_app_eq {A B} (l1 l2 : list A) (m1 m2 : list B) :
  List.length l1 = List.length m1 ->
  combine (l1 ++ l2) (m1 ++ m2) = (combine l1 m1 ++ combine l2 m2)%list.
Proof.
  revert m1. induction l1 as [|a l1 IH]; intros [|b m1]; simpl;
    try discriminate; [reflexivity|].
  intros [= H]. now rewrite IH.
Qed.

Lemma combine_fst {A B} (l : list A) (m : list B) :
  List.length l = List.length m -> map fst (combine l m) = l.
Proof.
  revert m. induction l as [|a l IH]; intros [|b m]; simpl;
    try discriminate; [reflexivity|].
  intros [= H]. now rewrite IH.
Qed.

Lemma combine_snd {A B} (l : list A) (m : list B) :
  List.length l = List.length m -> map snd (combine l m) = m.
Proof.
  revert m. induction l as [|a l IH]; intros [|b m]; simpl;
    try discriminate; [reflexivity|].
  intros [= H]. now rewrite IH.
Qed.

(** Line 156 builds the dict that pairs the names with the combination. *)
Lemma zip_dict_from names2 :
  forall (c2 : list candidate) names1 (c1 : list candidate),
    List.length names1 = List.length c1 ->
    List.length names2 = List.length c2 ->
    NoDup (names1 ++ names2) ->
    zip_dict (names1 ++ names2) (c1 ++ c2)
             (seq (List.length names1) (List.length names2))
             (combine names1 c1)
    = Ok (combine (names1 ++ names2) (c1 ++ c2)).
Proof.
  induction names2 as [|n ns IH]; intros [|x cs] names1 c1 H1 H2 Hnd;
    simpl in H2; try discriminate.
  - simpl. now rewrite !app_nil_r.
  - injection H2 as H2. simpl seq. simpl zip_dict.
    unfold list_getitem.
    rewrite nth_error_app2 by lia. rewrite Nat.sub_diag. simpl.
    rewrite nth_error_app2 by lia.
    replace (List.length names1 - List.length c1)%nat with 0%nat by lia.
    simpl.
    rewrite dict_set_new.
    2:{ unfold dict_keys. rewrite combine_fst by assumption.
        apply NoDup_remove_2 in Hnd. intros Hin. apply Hnd.
        apply in_or_app. now left. }
    change [(n, x)] with (combine [n] [x]).
    rewrite <- combine_app_eq by assumption.
    specialize (IH cs (names1 ++ [n])%list (c1 ++ [x])%list).
    rewrite !length_app in IH. simpl in IH.
    rewrite <- !app_assoc in IH. simpl in IH.
    replace (S (List.length names1)) with (List.length names1 + 1)%nat by lia.
    apply IH; [lia | assumption | assumption].
Qed.

Lemma zip_dict_combine names (c : list candidate) :
  NoDup names -> List.length c = List.length names ->
  zip_dict names c (seq 0 (List.length names)) [] = Ok (combine names c).
Proof.
  intros Hnd Hlen.
  exact (zip_dict_from names c [] [] eq_refl (eq_sym Hlen) Hnd).
Qed.

(** One combination, when it has one candidate per name. *)
Lemma evaluate_eq h names cutoff (c : list candidate) :
  NoDup names -> List.length c = List.length names ->
  evaluate h names cutoff c
  = match implied_total (map (@snd value Q) c) with
    | Raise e => gen_raise e
    | Ok t =>
        if is_arbitrage cutoff t then
          gen_yield {| match_name := h_match_name h;
                       match_start_time := h_start_time h;
                       hours_to_start := h_time_to_start h;
                       league := h_league h;
                       best_outcome_odds := combine names c;
                       total_implied_odds := t |}
        else gen_empty
    end.
Proof.
  intros Hnd Hlen. unfold evaluate.
  rewrite zip_dict_combine by assumption. simpl.
  unfold dict_values. rewrite combine_snd by (symmetry; assumption).
  now destruct (implied_total (map snd c)).
Qed.


Lemma implied_total_candidates_inv (c : list candidate) (t : Q) :
  implied_total (map (@snd value Q) c) = Ok t ->
  Forall (fun x => ~ snd x == 0) c /\ t = implied c.
Proof.
  intros H. apply implied_total_inv in H as [Hnz ->]. split.
  - rewrite Forall_forall in *. intros x Hx. apply Hnz. now apply in_map.
  - unfold implied. now rewrite map_map.
Qed.

Lemma is_arbitrage_iff (cutoff t : Q) :
  is_arbitrage cutoff t = true <-> (0 < t /\ t < 1) /\ cutoff <= 1 - t.
Proof.
  unfold is_arbitrage. rewrite !andb_true_iff, !Qltb_lt, Qle_bool_iff.
  tauto.
Qed.

Lemma ranked_nonempty qs n : In n (outcome_names_of qs) -> ranked qs n <> [].
Proof.
  intros Hn Hnil. apply (candidates_of_nonempty _ _ Hn).
  apply length_zero_iff_nil.
  rewrite <- (sort_desc_length (@snd value Q)). fold (ranked qs n).
  now rewrite Hnil.
Qed.

Lemma ranked_in qs n c :
  In c (ranked qs n) <->
  In {| outcome_name := n; bookie_name := fst c; odd := snd c |} qs.
Proof.
  unfold ranked. rewrite sort_desc_in. apply candidates_of_in.
Qed.

Lemma best_prices_tabulate (g : string -> list candidate) ns names :
  forall acc,
    (forall n, In n names -> In n ns /\ g n <> []) ->
    NoDup names ->
    (forall n, In n names -> ~ In n (dict_keys acc)) ->
    best_prices (tabulate g ns) names acc
    = Ok (acc ++ map (fun n => (n, top_price (g n))) names)%list.
Proof.
  induction names as [|n names IH]; intros acc Hin Hnd Hacc; simpl.
  - now rewrite app_nil_r.
  - destruct (Hin n (or_introl eq_refl)) as [Hn Hg].
    unfold dict_getitem. rewrite (tabulate_get_in _ _ _ Hn). simpl.
    destruct (g n) as [|c l] eqn:Eg; [contradiction|].
    rewrite dict_set_new by (apply Hacc; now left).
    inversion Hnd as [|? ? Hnotin Hnd']; subst.
    rewrite IH; [now rewrite <- app_assoc | | assumption |].
    + intros m Hm. apply Hin. now right.
    + intros m Hm. unfold dict_keys. rewrite map_app, in_app_iff. simpl.
      intros [H|[<-|[]]]; [|contradiction].
      apply (Hacc m); [now right | assumption].
Qed.

Lemma best_total_ranking qs :
  best_total (ranking qs) (outcome_names_of qs) = best_case qs.
Proof.
  unfold best_total, ranking, best_case.
  rewrite best_prices_tabulate.
  - simpl. unfold dict_values. now rewrite map_map.
  - intros n Hn. split; [assumption | now apply ranked_nonempty].
  - apply outcome_names_nodup.
  - intros n _ [].
Qed.

Lemma cap_entry {A} (l : list A) :
  (if (2 <? List.length l)%nat then firstn 2 l else l) = firstn 2 l.
Proof.
  destruct (Nat.ltb_spec 2 (List.length l)); [reflexivity|].
  symmetry. now apply firstn_all2.
Qed.

Lemma cap_tabulate (g : string -> list candidate) ns :
  cap (tabulate g ns) = tabulate (fun n => firstn 2 (g n)) ns.
Proof.
  unfold cap, tabulate. rewrite map_map. apply map_ext. intros n.
  cbn [fst snd]. now rewrite cap_entry.
Qed.

Lemma mapM_getitem_tabulate (g : string -> list candidate) ns :
  mapM (dict_getitem (tabulate g ns)) ns = Ok (map g ns).
Proof.
  apply mapM_ok. intros n Hn. unfold dict_getitem.
  now rewrite (tabulate_get_in _ _ _ Hn).
Qed.

Lemma bookmaker_options_ranking qs :
  bookmaker_options (ranking qs) (outcome_names_of qs)
  = Ok (map (enumerated qs) (outcome_names_of qs)).
Proof.
  unfold bookmaker_options, enumerated, ranking.
  destruct (3 <? List.length (outcome_names_of qs))%nat.
  - rewrite cap_tabulate. apply mapM_getitem_tabulate.
  - apply mapM_getitem_tabulate.
Qed.

(** The combinations of a match, by the notions of the specification. *)
Lemma combinations_eq qs :
  combinations qs
  = if (List.length (outcome_names_of qs) <? 2)%nat then Ok []
    else match best_case qs with
         | Raise e => Raise e
         | Ok total =>
             if Qle_bool 1 total then Ok []
             else Ok (product (map (enumerated qs) (outcome_names_of qs)))
         end.
Proof.
  unfold combinations. rewrite sort_all_collect, ranking_keys.
  rewrite best_total_ranking, bookmaker_options_ranking. reflexivity.
Qed.

(** [process_match] goes through the combinations and evaluates each. *)
Lemma process_match_eq h qs cutoff :
  process_match h qs cutoff
  = match combinations qs with
    | Raise e => gen_raise e
    | Ok cs => gen_for cs (evaluate h (outcome_names_of qs) cutoff)
    end.
Proof.
  unfold process_match, combinations.
  rewrite sort_all_collect, ranking_keys.
  destruct (List.length (outcome_names_of qs) <? 2)%nat; [reflexivity|].
  destruct (best_total (ranking qs) (outcome_names_of qs)); [|reflexivity].
  destruct (Qle_bool 1 a); [reflexivity|].
  now destruct (bookmaker_options (ranking qs) (outcome_names_of qs)).
Qed.

(** Every combination has one candidate per outcome name. *)
Lemma combinations_length qs cs c :
  combinations qs = Ok cs -> In c cs ->
  List.length c = List.length (outcome_names_of qs).
Proof.
  rewrite combinations_eq.
  destruct (List.length (outcome_names_of qs) <? 2)%nat.
  - intros [= <-] [].
  - destruct (best_case qs) as [t|e]; [|discriminate].
    destruct (Qle_bool 1 t).
    + intros [= <-] [].
    + intros [= <-] Hc. apply product_in_length in Hc.
      now rewrite length_map in Hc.
Qed.
End ScanSteps.

Section Combinations.
Implicit Types (qs : list Quote) (c : list candidate).

Lemma firstn_incl {A} (n : nat) (l : list A) (x : A) :
  In x (firstn n l) -> In x l.
Proof.
  revert l. induction n as [|n IH]; intros [|a l]; simpl; try tauto.
  intros [H|H]; [now left | right; now apply IH].
Qed.

Lemma Forall2_map_right {A B C} (R : A -> C -> Prop) (f : B -> C)
    (l : list A) (m : list B) :
  Forall2 R l (map f m) <-> Forall2 (fun a b => R a (f b)) l m.
Proof.
  revert l. induction m as [|b m IH]; intros l; simpl.
  - split; intros H; inversion H; constructor.
  - split; intros H; inversion H; subst; constructor;
      try assumption; now apply IH.
Qed.

Lemma enumerated_incl qs n x : In x (enumerated qs n) -> In x (ranked qs n).
Proof.
  unfold enumerated.
  destruct (3 <? List.length (outcome_names_of qs))%nat; [|tauto].
  apply firstn_incl.
Qed.

(** A combination takes, for every outcome in turn, one of the
    candidates enumerated for it. *)
Lemma combinations_in qs cs c :
  combinations qs = Ok cs -> In c cs ->
  Forall2 (fun x n => In x (enumerated qs n)) c (outcome_names_of qs).
Proof.
  rewrite combinations_eq.
  destruct (List.length (outcome_names_of qs) <? 2)%nat.
  - intros [= <-] [].
  - destruct (best_case qs) as [t|e]; [|discriminate].
    destruct (Qle_bool 1 t).
    + intros [= <-] [].
    + intros [= <-] Hc. apply product_in in Hc.
      exact (proj1 (Forall2_map_right (fun x l => In x l) (enumerated qs)
                      c (outcome_names_of qs)) Hc).
Qed.






(** What an opportunity yielded for a match looks like. *)
Lemma process_match_yielded h qs cutoff o :
  In o (yielded (process_match h qs cutoff)) ->
  exists cs c,
    combinations qs = Ok cs /\ In c cs /\
    Forall (fun x => ~ snd x == 0) c /\
    is_arbitrage cutoff (implied c) = true /\
    o = opportunity h (outcome_names_of qs) c.
Proof.
  rewrite process_match_eq.
  destruct (combinations qs) as [cs|e] eqn:Hcs; [|intros []].
  intros Ho. apply gen_for_in in Ho as [c [Hc Ho]].
  exists cs, c. split; [reflexivity|]. split; [assumption|].
  rewrite evaluate_eq in Ho;
    [| apply outcome_names_nodup | now apply (@combinations_length qs cs)].
  destruct (implied_total (map snd c)) as [t|e] eqn:Ht; [|destruct Ho].
  apply implied_total_candidates_inv in Ht as [Hnz ->].
  destruct (is_arbitrage cutoff (implied c)) eqn:Ha; [|destruct Ho].
  destruct Ho as [<-|[]]. repeat split; assumption.
Qed.

End Combinations.

(* ================================================================== *)
(** * The scanner emits exactly the arbitrages *)
(* ================================================================== *)

(** Closes a goal [~ q == 0], [0 < q] or [a <= b] on concrete rationals. *)
Ltac concrete_Q :=
  solve [ intros H; vm_compute in H; discriminate H
        | vm_compute; reflexivity
        | vm_compute; intros H; discriminate H ].



(* ================================================================== *)
(** * Pruning on the best prices loses nothing *)
(* ================================================================== *)

Section Pruning.
Implicit Types (qs : list Quote) (c : list candidate).




End Pruning.



(* ================================================================== *)
(** * The outcomes of an opportunity; the cap on the candidate lists *)
(* ================================================================== *)

Section Outcomes.
Implicit Types (qs : list Quote) (c : list candidate).

Lemma Forall2_combine_in {A B} (R : A -> B -> Prop) (l : list A)
    (m : list B) (a : A) (b : B) :
  Forall2 R l m -> In (b, a) (combine m l) -> R a b.
Proof.
  induction 1 as [|x y l m Hxy _ IH]; simpl; [tauto|].
  intros [[= <- <-]|H]; [assumption | now apply IH].
Qed.

Lemma outcome_names_in qs n :
  In n (outcome_names_of qs) <-> exists q, In q qs /\ outcome_name q = n.
Proof.
  unfold outcome_names_of. rewrite first_seen_in, in_map_iff.
  split; intros [q [H1 H2]]; exists q; tauto.
Qed.

(** A match that reaches the enumeration has at least two outcomes. *)
Lemma combinations_two qs cs c :
  combinations qs = Ok cs -> In c cs ->
  (2 <= List.length (outcome_names_of qs))%nat.
Proof.
  rewrite combinations_eq.
  destruct (Nat.ltb_spec (List.length (outcome_names_of qs)) 2) as [Hlt|Hge];
    [intros [= <-] [] | intros _ _; exact Hge].
Qed.

Lemma enumerated_capped qs n :
  (3 < List.length (outcome_names_of qs))%nat ->
  enumerated qs n = firstn 2 (ranked qs n).
Proof.
  intros H. unfold enumerated. apply Nat.ltb_lt in H. now rewrite H.
Qed.
End Outcomes.

(** C5.  Every opportunity [process_match] yields maps exactly the distinct
    outcome names of the quotes read from the first markets of the match,
    each once and in the order they are first seen, to one of the quotes
    of that outcome, and there are at least 2 of them; a match with fewer
    than 2 distinct outcome names yields nothing. *)
Theorem opportunity_covers_outcomes (h : Header) (qs : list Quote) (cutoff : Q) :
  (forall o, In o (yielded (process_match h qs cutoff)) ->
     dict_keys (best_outcome_odds o) = outcome_names_of qs /\
     NoDup (dict_keys (best_outcome_odds o)) /\
     (2 <= List.length (dict_keys (best_outcome_odds o)))%nat /\
     (forall n, In n (dict_keys (best_outcome_odds o)) <->
                exists q, In q qs /\ outcome_name q = n) /\
     (forall n x, In (n, x) (best_outcome_odds o) ->
        In {| outcome_name := n; bookie_name := fst x; odd := snd x |} qs))
  /\
  ((List.length (outcome_names_of qs) < 2)%nat ->
   process_match h qs cutoff = gen_empty).
Proof.
  split.
  - intros o Ho.
    apply process_match_yielded in Ho as [cs [c [Hcs [Hc [_ [_ ->]]]]]].
    simpl.
    assert (Hkeys : dict_keys (combine (outcome_names_of qs) c)
                    = outcome_names_of qs).
    { unfold dict_keys. apply combine_fst. symmetry.
      now apply (@combinations_length qs cs). }
    rewrite Hkeys. split; [reflexivity|].
    split; [apply outcome_names_nodup|].
    split; [now apply (@combinations_two qs cs c)|].
    split; [apply outcome_names_in|].
    intros n x Hx. apply ranked_in, enumerated_incl.
    exact (@Forall2_combine_in _ _ _ _ _ _ _
             (@combinations_in qs cs c Hcs Hc) Hx).
  - intros Hlt. rewrite process_match_eq, combinations_eq.
    apply Nat.ltb_lt in Hlt. now rewrite Hlt.
Qed.

Lemma opportunity_covers_outcomes_witness :
  process_match example_header example_quotes_single 0 = gen_empty.
Proof.
  apply (proj2 (opportunity_covers_outcomes example_header
                  example_quotes_single 0)).
  vm_compute. lia.
Defined.

(** C6.  In a match with more than 3 distinct outcomes the candidate lists
    that are enumerated are the first 2 entries of every outcome's list
    ranked from the best price down (a stable descending sort of the
    outcome's candidates); so at most [2 ^ outcomes] combinations are
    enumerated, and every candidate an opportunity of the match uses is
    the best or the second best of its outcome. *)
Theorem many_outcomes_use_top_two (h : Header) (qs : list Quote) (cutoff : Q) :
  (3 < List.length (outcome_names_of qs))%nat ->
  bookmaker_options (sort_all (collect qs)) (dict_keys (sort_all (collect qs)))
  = Ok (map (fun n => firstn 2 (ranked qs n)) (outcome_names_of qs)) /\
  (forall n, descending (@snd value Q) (ranked qs n) /\
             Permutation (ranked qs n) (candidates_of qs n)) /\
  (forall cs, combinations qs = Ok cs ->
     (List.length cs <= 2 ^ List.length (outcome_names_of qs))%nat /\
     forall c, In c cs ->
       Forall2 (fun x n => In x (firstn 2 (ranked qs n)))
               c (outcome_names_of qs)) /\
  (forall o n x,
     In o (yielded (process_match h qs cutoff)) ->
     In (n, x) (best_outcome_odds o) ->
     In x (firstn 2 (ranked qs n))).
Proof.
  intros Hmany.
  assert (Henum : forall n, enumerated qs n = firstn 2 (ranked qs n))
    by (intros n; now apply enumerated_capped).
  split; [|split; [|split]].
  - rewrite sort_all_collect, ranking_keys, bookmaker_options_ranking.
    f_equal. apply map_ext. exact Henum.
  - intros n. split; [apply sort_desc_sorted | apply sort_desc_perm].
  - intros cs Hcs. split.
    + rewrite combinations_eq in Hcs.
      destruct (List.length (outcome_names_of qs) <? 2)%nat;
        [injection Hcs as <-; simpl; lia|].
      destruct (best_case qs) as [t|e]; [|discriminate].
      destruct (Qle_bool 1 t); [injection Hcs as <-; simpl; lia|].
      injection Hcs as <-.
      rewrite <- (length_map (enumerated qs) (outcome_names_of qs)).
      apply product_length_le. apply Forall_forall. intros l Hl.
      apply in_map_iff in Hl as [n [<- _]]. rewrite Henum.
      apply firstn_le_length.
    + intros c Hc. pose proof (@combinations_in qs cs c Hcs Hc) as H.
      eapply Forall2_impl; [|exact H]. intros x n Hx. simpl in Hx.
      now rewrite <- Henum.
  - intros o n x Ho Hx.
    apply process_match_yielded in Ho as [cs [c [Hcs [Hc [_ [_ ->]]]]]].
    simpl in Hx. rewrite <- Henum.
    exact (@Forall2_combine_in _ _ _ _ _ _ _
             (@combinations_in qs cs c Hcs Hc) Hx).
Qed.

Lemma many_outcomes_use_top_two_witness :
  (3 < List.length (outcome_names_of example_quotes_four))%nat /\
  (forall o n x,
     In o (yielded (process_match example_header example_quotes_four 0)) ->
     In (n, x) (best_outcome_odds o) ->
     In x (firstn 2 (ranked example_quotes_four n))).
Proof.
  assert (H : (3 < List.length (outcome_names_of example_quotes_four))%nat)
    by (vm_compute; lia).
  split; [exact H|].
  exact (proj2 (proj2 (proj2
           (@many_outcomes_use_top_two example_header example_quotes_four 0 H)))).
Defined.

(* ================================================================== *)
(** * The bankroll allocation *)
(* ================================================================== *)

Section Allocation.
Implicit Types (odds : list (string * candidate)) (total bankroll : Q).

Lemma allocation_loop_ok odds total bankroll :
  forall (acc : list (string * Allocation)) (tp : Q),
    NoDup (dict_keys acc ++ dict_keys odds) ->
    Forall (fun kv => ~ snd (snd kv) == 0) odds ->
    ~ total == 0 ->
    exists tp',
      allocation_loop odds total bankroll acc tp
      = Ok ((acc ++ map (fun kv => (fst kv, allocation_of total bankroll (snd kv)))
                        odds)%list, tp').
Proof.
  induction odds as [|[outcome [bookie price]] odds IH];
    intros acc tp Hnd Hnz Ht; simpl.
  - exists tp. now rewrite app_nil_r.
  - inversion Hnz as [|? ? Hp Hnz']; subst. simpl in Hp.
    rewrite (inverse_ok Hp). simpl. rewrite (divide_ok (1 / price) Ht). simpl.
    rewrite dict_set_new.
    2:{ apply NoDup_remove_2 in Hnd. intros Hin. apply Hnd.
        apply in_or_app. now left. }
    destruct (IH (acc ++ [(outcome,
                           {| percentage := 1 / price / total * 100;
                              amount := bankroll * (1 / price / total);
                              bookmaker := bookie;
                              alloc_odd := price |})])%list
                 (tp + 1 / price / total * 100)) as [tp' Htp'];
      [| assumption | assumption |].
    + unfold dict_keys in *. rewrite map_app, <- app_assoc. exact Hnd.
    + exists tp'. rewrite Htp', <- app_assoc. reflexivity.
Qed.

(** The allocations returned, whether or not the warning is printed. *)
Lemma calculate_bankroll_allocation_ok format_2f odds total bankroll w :
  NoDup (dict_keys odds) ->
  Forall (fun kv => ~ snd (snd kv) == 0) odds ->
  ~ total == 0 ->
  fst (calculate_bankroll_allocation format_2f odds total bankroll w)
  = Ok (map (fun kv => (fst kv, allocation_of total bankroll (snd kv))) odds).
Proof.
  intros Hnd Hnz Ht. unfold calculate_bankroll_allocation.
  destruct (@allocation_loop_ok odds total bankroll [] 0 Hnd Hnz Ht)
    as [tp' ->].
  simpl.
  now destruct (negb (Qle_bool (995 # 10) tp' && Qle_bool tp' (1005 # 10))).
Qed.

Lemma payout_allocation_of total bankroll (c : candidate) :
  ~ snd c == 0 -> ~ total == 0 ->
  payout (allocation_of total bankroll c) == bankroll / total.
Proof.
  intros Hp Ht. unfold payout, allocation_of, stake_fraction. simpl.
  field. split; assumption.
Qed.

Lemma total_staked_allocations odds total bankroll :
  ~ total == 0 ->
  total_staked (map (fun kv => (fst kv, allocation_of total bankroll (snd kv)))
                    odds)
  == bankroll * implied (dict_values odds) / total.
Proof.
  intros Ht. unfold total_staked, implied, dict_values.
  rewrite !map_map. simpl.
  induction odds as [|[outcome c] odds IH]; simpl.
  - rewrite sum_nil. field. assumption.
  - rewrite !sum_cons, IH. unfold stake_fraction. simpl.
    generalize (1 / snd c). intros x. field. assumption.
Qed.
End Allocation.

(** C3.  On chosen candidates with distinct outcome names, no zero price
    and a non-zero [total_implied_odds], [calculate_bankroll_allocation]
    returns, for every outcome with its (bookmaker, price), the percentage
    [(1/price) / total * 100] and the amount [bankroll * (1/price) / total]
    with that bookmaker and price, and the payout [amount * price] is
    [bankroll / total] for every outcome: it does not depend on the
    outcome. *)
Theorem allocation_equalises_payout (format_2f : Q -> string)
    (odds : list (string * candidate)) (total bankroll : Q) (w : world) :
  NoDup (dict_keys odds) ->
  Forall (fun kv => ~ snd (snd kv) == 0) odds ->
  ~ total == 0 ->
  exists allocations,
    fst (calculate_bankroll_allocation format_2f odds total bankroll w)
    = Ok allocations /\
    dict_keys allocations = dict_keys odds /\
    forall outcome bookie price,
      In (outcome, (bookie, price)) odds ->
      exists a,
        dict_get allocations outcome = Some a /\
        percentage a = (1 / price) / total * 100 /\
        amount a = bankroll * ((1 / price) / total) /\
        bookmaker a = bookie /\
        alloc_odd a = price /\
        payout a == bankroll / total.
Proof.
  intros Hnd Hnz Ht. eexists. split; [|split].
  - now apply calculate_bankroll_allocation_ok.
  - unfold dict_keys. rewrite map_map. reflexivity.
  - intros outcome bookie price Hin.
    exists (allocation_of total bankroll (bookie, price)).
    split; [|repeat split].
    + apply dict_get_nodup.
      * unfold dict_keys in *. now rewrite map_map.
      * apply in_map_iff. now exists (outcome, (bookie, price)).
    + apply payout_allocation_of; [|assumption]. simpl.
      rewrite Forall_forall in Hnz. exact (Hnz _ Hin).
Qed.

Lemma allocation_equalises_payout_witness :
  exists allocations,
    fst (calculate_bankroll_allocation (fun _ => "x"%string) example_odds
           (47 # 55) 1000 world0)
    = Ok allocations /\
    dict_keys allocations = dict_keys example_odds /\
    forall outcome bookie price,
      In (outcome, (bookie, price)) example_odds ->
      exists a,
        dict_get allocations outcome = Some a /\
        percentage a = (1 / price) / (47 # 55) * 100 /\
        amount a = 1000 * ((1 / price) / (47 # 55)) /\
        bookmaker a = bookie /\
        alloc_odd a = price /\
        payout a == 1000 / (47 # 55).
Proof.
  apply allocation_equalises_payout.
  - repeat constructor; simpl; intuition discriminate.
  - repeat constructor; concrete_Q.
  - concrete_Q.
Defined.

(** C4, as the claim states it, fails.  On the opportunity that takes 2.50
    on A and 2.20 on B, with [total_implied_odds] the sum of [1/price] and
    a bankroll of 1000, the whole bankroll is staked and the bet on A pays
    [1000 / total]; the payout minus the stakes is [8000/47], about 170.21,
    and not [bankroll * (1 - total) = 8000/55], about 145.45, the figure
    [display_results] shows. *)
Lemma net_profit_counterexample :
  exists allocations a,
    fst (calculate_bankroll_allocation (fun _ => "x"%string) example_odds
           (implied (dict_values example_odds)) 1000 world0)
    = Ok allocations /\
    In ("A"%string, a) allocations /\
    total_staked allocations == 1000 /\
    net_profit allocations a == 8000 # 47 /\
    ~ net_profit allocations a
      == 1000 * (1 - implied (dict_values example_odds)).
Proof.
  eexists. eexists. split; [reflexivity|].
  split; [left; reflexivity|].
  split; [vm_compute; reflexivity|].
  split; [vm_compute; reflexivity|].
  vm_compute. intros H. discriminate H.
Qed.

(** C4, amended.  When [total_implied_odds] is the sum of [1/price] over
    the chosen candidates, the stakes add up to the bankroll, every bet
    pays [bankroll / total], and the net profit, the payout minus the
    stakes, is [bankroll * (1 - total) / total] whichever outcome wins.
    The amount [bankroll * (1 - total)] that [display_results] shows is
    that profit multiplied by [total]. *)
Theorem net_profit_of_allocation (format_2f : Q -> string)
    (odds : list (string * candidate)) (total bankroll : Q) (w : world)
    (allocations : list (string * Allocation)) :
  NoDup (dict_keys odds) ->
  Forall (fun kv => ~ snd (snd kv) == 0) odds ->
  ~ total == 0 ->
  total == implied (dict_values odds) ->
  fst (calculate_bankroll_allocation format_2f odds total bankroll w)
  = Ok allocations ->
  total_staked allocations == bankroll /\
  forall outcome a,
    In (outcome, a) allocations ->
    payout a == bankroll / total /\
    net_profit allocations a == bankroll * (1 - total) / total /\
    forall arb,
      total_implied_odds arb = total ->
      profit_amount bankroll arb == total * net_profit allocations a.
Proof.
  intros Hnd Hnz Ht Hsum Hcalc.
  rewrite calculate_bankroll_allocation_ok in Hcalc by assumption.
  injection Hcalc as <-.
  assert (Hstaked :
    total_staked (map (fun kv => (fst kv, allocation_of total bankroll (snd kv)))
                      odds) == bankroll).
  { rewrite total_staked_allocations by assumption.
    rewrite <- Hsum. field. assumption. }
  split; [exact Hstaked|].
  intros outcome a Hin. apply in_map_iff in Hin as [[o c] [[= <- <-] Hin]].
  simpl.
  assert (Hpay : payout (allocation_of total bankroll c) == bankroll / total).
  { apply payout_allocation_of; [|assumption].
    rewrite Forall_forall in Hnz. exact (Hnz _ Hin). }
  split; [exact Hpay|].
  assert (Hnet : net_profit
                   (map (fun kv => (fst kv, allocation_of total bankroll (snd kv)))
                        odds) (allocation_of total bankroll c)
                 == bankroll * (1 - total) / total).
  { unfold net_profit. rewrite Hpay, Hstaked. field. assumption. }
  split; [exact Hnet|].
  intros arb Harb. rewrite Hnet. unfold profit_amount. rewrite Harb.
  field. assumption.
Qed.

Lemma net_profit_of_allocation_witness :
  total_staked
    (map (fun kv => (fst kv, allocation_of (47 # 55) 1000 (snd kv)))
         example_odds) == 1000 /\
  forall outcome a,
    In (outcome, a)
       (map (fun kv => (fst kv, allocation_of (47 # 55) 1000 (snd kv)))
            example_odds) ->
    payout a == 1000 / (47 # 55) /\
    net_profit
      (map (fun kv => (fst kv, allocation_of (47 # 55) 1000 (snd kv)))
           example_odds) a
    == 1000 * (1 - (47 # 55)) / (47 # 55) /\
    forall arb,
      total_implied_odds arb = 47 # 55 ->
      profit_amount 1000 arb
      == (47 # 55)
         * net_profit
             (map (fun kv => (fst kv, allocation_of (47 # 55) 1000 (snd kv)))
                  example_odds) a.
Proof.
  apply (@net_profit_of_allocation (fun _ => "x"%string) example_odds
           (47 # 55) 1000 world0).
  - repeat constructor; simpl; intuition discriminate.
  - repeat constructor; concrete_Q.
  - concrete_Q.
  - vm_compute. reflexivity.
  - reflexivity.
Defined.

(* ================================================================== *)
(** * The fetch orchestrator *)
(* ================================================================== *)

Section Orchestrator.
Variable E : env.
Implicit Types (key region sport : string) (w : world).

Lemma get_arbitrage_opportunities_eq key region cutoff selected w :
  get_arbitrage_opportunities E key region cutoff selected w
  = match selected with
    | None | Some [] =>
        match get_sports E key w with
        | (Ok sports, w1) => fetch_and_scan E key region cutoff sports w1
        | (Raise e, w1) => (Raise e, w1)
        end
    | Some sports => fetch_and_scan E key region cutoff sports w
    end.
Proof.
  assert (H : forall (c : M (list string)),
    bindM c (fun sports =>
      bindM (executor_map (fetch_sport_data E)
               (map (fun sport => (key, sport, region)) sports))
        (fun results w0 =>
           let '(g, w1) :=
             process_data E (gen_filter not_message (chain_from_iterable results))
                          default_include_started_matches cutoff w0 in
           (list_of_gen g, w1))) w
    = match c w with
      | (Ok sports, w1) => fetch_and_scan E key region cutoff sports w1
      | (Raise e, w1) => (Raise e, w1)
      end).
  { intros c. unfold bindM, fetch_and_scan, executor_map.
    destruct (c w) as [[sports|e] w1]; [|reflexivity].
    destruct (run_all (fetch_sport_data E)
                (map (fun sport => (key, sport, region)) sports) w1)
      as [rs w2].
    now destruct (mapM (fun r => r) rs). }
  unfold get_arbitrage_opportunities.
  destruct selected as [[|sport sports]|]; rewrite H; reflexivity.
Qed.


Lemma get_data_world key sport region w :
  snd (get_data E key sport region w)
  = {| clock_reads := clock_reads w;
       requests := (requests w ++ [odds_request E key region sport])%list;
       stdout := stdout w |}.
Proof.
  unfold get_data, bindM, http_get, raise, lift, odds_request.
  destruct (requests_get E _ _) as [r|e]; [|reflexivity].
  now destruct (negb (ok r)).
Qed.

Lemma fetch_sport_data_world key sport region w :
  clock_reads (snd (fetch_sport_data E (key, sport, region) w)) = clock_reads w /\
  requests (snd (fetch_sport_data E (key, sport, region) w))
  = (requests w ++ [odds_request E key region sport])%list.
Proof.
  unfold fetch_sport_data.
  pose proof (get_data_world key sport region w) as Hw.
  destruct (get_data E key sport region w) as [[v|e] w1]; simpl in Hw; subst w1.
  - now split.
  - destruct (exn_str E e); now split.
Qed.

Lemma run_all_fetch_world key region sports :
  forall w,
    clock_reads (snd (run_all (fetch_sport_data E)
                        (map (fun sport => (key, sport, region)) sports) w))
    = clock_reads w /\
    requests (snd (run_all (fetch_sport_data E)
                     (map (fun sport => (key, sport, region)) sports) w))
    = (requests w ++ map (odds_request E key region) sports)%list.
Proof.
  induction sports as [|sport sports IH]; intros w; cbn [run_all map].
  - simpl. now rewrite app_nil_r.
  - destruct (fetch_sport_data_world key sport region w) as [Hc Hr].
    destruct (fetch_sport_data E (key, sport, region) w) as [r w1].
    simpl in Hc, Hr.
    destruct (IH w1) as [Hc' Hr'].
    destruct (run_all (fetch_sport_data E)
                (map (fun sport0 => (key, sport0, region)) sports) w1)
      as [rs w2].
    simpl in *. rewrite Hc', Hr', Hc, Hr, <- app_assoc. now split.
Qed.




End Orchestrator.

Section Isolation.
Variable E : env.


(** When it cannot, the error of the printing leaves the function. *)
Lemma fetch_sport_data_escapes key sport region w e w1 e' :
  get_data E key sport region w = (Raise e, w1) ->
  exn_str E e = Raise e' ->
  fetch_sport_data E (key, sport, region) w = (Raise e', w1).
Proof.
  intros Hget Hstr. unfold fetch_sport_data. now rewrite Hget, Hstr.
Qed.

End Isolation.

(** C7: the code breaks the claim.  In [example_env] the odds request for
    [tennis_wta] is answered with status 502 and a body that is not JSON:
    [get_data] raises [APIException].  [fetch_sport_data] catches it, and
    its handler prints [str(e)]; [APIException.__str__] calls
    [response.json()], which raises [JSONDecodeError] inside the handler.
    That exception leaves [fetch_sport_data] and
    [get_arbitrage_opportunities]: asked for [soccer_epl] alone the call
    returns opportunities, asked for [soccer_epl] and [tennis_wta] it
    raises. *)
Theorem fetch_failure_escapes :
  (exists msg r,
     fst (get_data example_env "k" "tennis_wta" "eu" world0)
     = Raise (APIException msg r) /\
     exn_str example_env (APIException msg r)
     = Raise (JSONDecodeError "Expecting value")) /\
  fst (fetch_sport_data example_env ("k", "tennis_wta", "eu")%string world0)
  = Raise (JSONDecodeError "Expecting value") /\
  (exists opps,
     fst (get_arbitrage_opportunities example_env "k" "eu" 0
            (Some ["soccer_epl"%string]) world0) = Ok opps /\
     opps <> []) /\
  fst (get_arbitrage_opportunities example_env "k" "eu" 0
         (Some ["soccer_epl"; "tennis_wta"]%string) world0)
  = Raise (JSONDecodeError "Expecting value").
Proof.
  split; [|split; [|split]].
  - eexists. eexists. split; reflexivity.
  - reflexivity.
  - eexists. split; [vm_compute; reflexivity | discriminate].
  - vm_compute. reflexivity.
Qed.



(* ================================================================== *)
(** * What reaches the scanner *)
(* ================================================================== *)




(* ================================================================== *)
(** * Matches that have started *)
(* ================================================================== *)

Section Started.
Variable E : env.


End Started.



(** End to end: the started match of [example_env] is returned, with a
    negative [hours_to_start]. *)
Lemma started_match_is_returned :
  exists o1 o2,
    fst (get_arbitrage_opportunities example_env "k" "eu" 0
           (Some ["soccer_epl"%string]) world0) = Ok [o1; o2] /\
    match_start_time o1 = 500%Z /\
    hours_to_start o1 < 0 /\ hours_to_start o2 < 0.
Proof.
  eexists. eexists. split; [vm_compute; reflexivity|].
  split; [reflexivity|]. split; reflexivity.
Qed.

(* ================================================================== *)
(** * From records to opportunities; isolation of printable failures *)
(* ================================================================== *)

Section Pipeline.
Variable E : env.
Implicit Types (key region sport : string) (w : world).

(** An opportunity yielded for a record is one [process_match] yields for
    the quotes read from the first markets of its bookmakers. *)
Lemma process_record_yielded inc cutoff m w o :
  In o (yielded (fst (process_record E inc cutoff m w))) ->
  exists h bms qs,
    getitem m "bookmakers" = Ok bms /\
    read_quotes bms = Ok qs /\
    In o (yielded (process_match h qs cutoff)).
Proof.
  unfold process_record.
  destruct (bind (getitem m "commence_time") _) as [start|e]; [|intros []].
  destruct (if negb inc then _ else _) as [[|] w1]; [intros []|].
  destruct (bind (getitem m "home_team") _) as [[home away]|e]; [|intros []].
  destruct (time_time E w1) as [now w2].
  destruct (getitem m "sport_key") as [lg|e]; simpl; [|intros []].
  destruct (getitem m "bookmakers") as [bms|e]; simpl; [|intros []].
  destruct (read_quotes bms) as [qs|e] eqn:Hqs; simpl; [|intros []].
  intros Ho. eexists. exists bms, qs.
  split; [reflexivity|]. split; [exact Hqs | exact Ho].
Qed.

Lemma process_records_yielded inc cutoff ms :
  forall w o,
    In o (yielded (fst (process_records E inc cutoff ms w))) ->
    exists m w', In m ms /\ In o (yielded (fst (process_record E inc cutoff m w'))).
Proof.
  induction ms as [|m ms IH]; intros w o; simpl; [intros []|].
  destruct (process_record E inc cutoff m w) as [g w1] eqn:Hm.
  destruct (raised g) eqn:Hg; simpl.
  - intros Ho. exists m, w. rewrite Hm. split; [now left | exact Ho].
  - specialize (IH w1 o).
    destruct (process_records E inc cutoff ms w1) as [g' w2]. simpl in *.
    unfold gen_seq. rewrite Hg. simpl. intros Ho.
    apply in_app_or in Ho as [Ho|Ho].
    + exists m, w. rewrite Hm. split; [now left | exact Ho].
    + destruct (IH Ho) as [m' [w' [Hin Ho']]].
      exists m', w'. split; [now right | exact Ho'].
Qed.

(** The scanner depends on the world through the clock only. *)
Lemma process_record_clock inc cutoff m w w' :
  clock_reads w = clock_reads w' ->
  fst (process_record E inc cutoff m w) = fst (process_record E inc cutoff m w') /\
  clock_reads (snd (process_record E inc cutoff m w))
  = clock_reads (snd (process_record E inc cutoff m w')).
Proof.
  intros H. unfold process_record, time_time. rewrite H.
  destruct (bind (getitem m "commence_time") _) as [start|e];
    [|now split].
  destruct (negb inc); simpl.
  - destruct (Qltb (inject_Z start) _); [now split|].
    destruct (bind (getitem m "home_team") _) as [[home away]|e];
      [|now split].
    now destruct (bind (getitem m "sport_key") _) as [[lg qs]|e].
  - destruct (bind (getitem m "home_team") _) as [[home away]|e];
      [|now split].
    rewrite H.
    now destruct (bind (getitem m "sport_key") _) as [[lg qs]|e].
Qed.

Lemma process_records_clock inc cutoff ms :
  forall w w',
    clock_reads w = clock_reads w' ->
    fst (process_records E inc cutoff ms w)
    = fst (process_records E inc cutoff ms w').
Proof.
  induction ms as [|m ms IH]; intros w w' H; simpl; [reflexivity|].
  destruct (process_record_clock inc cutoff m w w' H) as [Hg Hc].
  destruct (process_record E inc cutoff m w) as [g w1].
  destruct (process_record E inc cutoff m w') as [g' w1'].
  simpl in Hg, Hc. subst g'.
  destruct (raised g); [reflexivity|].
  specialize (IH w1 w1' Hc).
  destruct (process_records E inc cutoff ms w1) as [g2 w2].
  destruct (process_records E inc cutoff ms w1') as [g2' w2'].
  simpl in *. now subst.
Qed.

Lemma process_data_clock matches inc cutoff w w' :
  clock_reads w = clock_reads w' ->
  fst (process_data E matches inc cutoff w)
  = fst (process_data E matches inc cutoff w').
Proof.
  intros H. unfold process_data.
  pose proof (process_records_clock inc cutoff (yielded matches) w w' H) as Hr.
  destruct (process_records E inc cutoff (yielded matches) w) as [g w1].
  destruct (process_records E inc cutoff (yielded matches) w') as [g' w1'].
  simpl in *. now subst.
Qed.

(** The result of a fetch does not depend on the world. *)
Lemma fetch_sport_data_result key region sport w :
  fst (fetch_sport_data E (key, sport, region) w) = fetch_result E key region sport.
Proof.
  unfold fetch_result, fetch_sport_data, get_data, bindM, http_get, raise, lift.
  destruct (requests_get E _ _) as [r|e]; simpl.
  - destruct (negb (ok r)); simpl.
    + now destruct (exn_str E (handle_faulty_response r)).
    + destruct (json r); [reflexivity|]. now destruct (exn_str E e).
  - now destruct (exn_str E e).
Qed.

Lemma run_all_fetch_results key region sports :
  forall w,
    fst (run_all (fetch_sport_data E)
           (map (fun sport => (key, sport, region)) sports) w)
    = map (fetch_result E key region) sports.
Proof.
  induction sports as [|sport sports IH]; intros w; cbn [run_all map];
    [reflexivity|].
  pose proof (fetch_sport_data_result key region sport w) as Hr.
  destruct (fetch_sport_data E (key, sport, region) w) as [r w1]. simpl in Hr.
  specialize (IH w1).
  destruct (run_all (fetch_sport_data E)
              (map (fun sport0 => (key, sport0, region)) sports) w1)
    as [rs w2].
  simpl in *. now subst.
Qed.

(** What [fetch_and_scan] returns, by the results of the fetches. *)
Lemma fetch_and_scan_result key region cutoff sports w :
  fst (fetch_and_scan E key region cutoff sports w)
  = match mapM (fun r => r) (map (fetch_result E key region) sports) with
    | Raise e => Raise e
    | Ok results =>
        list_of_gen (fst (process_data E (scanned_entries results) true cutoff w))
    end.
Proof.
  unfold fetch_and_scan.
  pose proof (run_all_fetch_results key region sports w) as Hr.
  destruct (run_all_fetch_world E key region sports w) as [Hc _].
  destruct (run_all (fetch_sport_data E)
              (map (fun sport => (key, sport, region)) sports) w) as [rs w1].
  simpl in Hr, Hc. subst rs.
  destruct (mapM (fun r => r) (map (fetch_result E key region) sports))
    as [results|e]; [|reflexivity].
  rewrite <- (process_data_clock (scanned_entries results) true cutoff w1 w Hc).
  now destruct (process_data E (scanned_entries results) true cutoff w1).
Qed.


End Pipeline.

(* ================================================================== *)
(** * Further properties of the scanner *)
(* ================================================================== *)

Section ScannerMore.
Implicit Types (qs : list Quote) (c : list candidate).




Lemma mapM_inverse_zero (prices : list Q) :
  Exists (fun p => p == 0) prices ->
  mapM inverse prices = Raise (ZeroDivisionError "division by zero").
Proof.
  induction 1 as [p prices Hp|p prices _ IH]; simpl.
  - unfold inverse. apply Qzero_iff in Hp. now rewrite Hp.
  - unfold inverse at 1. destruct (Qzero p); [reflexivity|]. now rewrite IH.
Qed.

Lemma gen_seq_assoc {A} (g1 g2 g3 : gen A) :
  gen_seq (gen_seq g1 g2) g3 = gen_seq g1 (gen_seq g2 g3).
Proof.
  unfold gen_seq. destruct (raised g1) eqn:H1; simpl.
  - now rewrite H1.
  - destruct (raised g2) eqn:H2; simpl; rewrite ?H2, ?app_assoc; reflexivity.
Qed.

Lemma gen_seq_empty_l {A} (g : gen A) : gen_seq gen_empty g = g.
Proof. unfold gen_seq. simpl. now destruct g. Qed.

Lemma gen_seq_raised_l {A} (g h : gen A) e :
  raised g = Some e -> gen_seq g h = g.
Proof. intros H. unfold gen_seq. now rewrite H. Qed.
End ScannerMore.





(** X3.  A match with at least 2 outcomes in which the top price of some
    outcome is zero makes [process_match] raise [ZeroDivisionError] before
    it yields anything. *)
Theorem zero_best_price_raises (h : Header) (qs : list Quote) (cutoff : Q)
    (n : string) :
  (2 <= List.length (outcome_names_of qs))%nat ->
  In n (outcome_names_of qs) ->
  top_price (ranked qs n) == 0 ->
  process_match h qs cutoff = gen_raise (ZeroDivisionError "division by zero").
Proof.
  intros Hn Hin Hz. rewrite process_match_eq, combinations_eq.
  destruct (Nat.ltb_spec (List.length (outcome_names_of qs)) 2) as [Hlt|_];
    [lia|].
  unfold best_case, implied_total.
  rewrite mapM_inverse_zero; [reflexivity|].
  apply Exists_exists. exists (top_price (ranked qs n)).
  split; [|assumption]. apply in_map_iff. now exists n.
Qed.

Lemma zero_best_price_raises_witness :
  process_match example_header
    [ {| outcome_name := "A"; bookie_name := VStr "X"; odd := 25 # 10 |};
      {| outcome_name := "B"; bookie_name := VStr "X"; odd := 0 |};
      {| outcome_name := "B"; bookie_name := VStr "Y"; odd := (-3) # 1 |} ] 0
  = gen_raise (ZeroDivisionError "division by zero").
Proof.
  apply (@zero_best_price_raises example_header _ 0 "B"%string).
  - vm_compute. lia.
  - vm_compute. tauto.
  - vm_compute. reflexivity.
Defined.

Section ScanRecords.
Variable E : env.

Lemma gen_seq_raised {A} (g h : gen A) :
  raised g = None -> raised (gen_seq g h) = raised h.
Proof. intros H. unfold gen_seq. now rewrite H. Qed.

Lemma process_records_app inc cutoff (l1 l2 : list value) :
  forall w,
    process_records E inc cutoff (l1 ++ l2) w
    = let '(g1, w1) := process_records E inc cutoff l1 w in
      match raised g1 with
      | Some _ => (g1, w1)
      | None =>
          let '(g2, w2) := process_records E inc cutoff l2 w1 in
          (gen_seq g1 g2, w2)
      end.
Proof.
  induction l1 as [|m l1 IH]; intros w; simpl.
  - destruct (process_records E inc cutoff l2 w) as [g2 w2].
    now rewrite gen_seq_empty_l.
  - destruct (process_record E inc cutoff m w) as [g w1].
    destruct (raised g) eqn:Hg.
    + rewrite Hg. reflexivity.
    + rewrite IH.
      destruct (process_records E inc cutoff l1 w1) as [g1 w2].
      rewrite (@gen_seq_raised _ g g1 Hg).
      destruct (raised g1); [reflexivity|].
      destruct (process_records E inc cutoff l2 w2) as [g2 w3].
      now rewrite gen_seq_assoc.
Qed.
End ScanRecords.

(** X4.  The scan stops at the first record that raises: when the records
    before it are processed without error and the record [m] raises [e],
    [process_data] yields what was yielded up to the error and ends with
    [e], whatever follows [m] and however the sequence of entries itself
    ends; [list] of it, which is what [get_arbitrage_opportunities]
    returns, raises [e] and the opportunities found before are lost. *)
Theorem scan_stops_at_first_error (E : env) (inc : bool) (cutoff : Q)
    (pre : list value) (m : value) (post : list value) (r : option exn)
    (w : world) (e : exn) :
  raised (fst (process_records E inc cutoff pre w)) = None ->
  raised (fst (process_record E inc cutoff m
                 (snd (process_records E inc cutoff pre w)))) = Some e ->
  fst (process_data E {| yielded := pre ++ m :: post; raised := r |}
         inc cutoff w)
  = gen_seq (fst (process_records E inc cutoff pre w))
            (fst (process_record E inc cutoff m
                    (snd (process_records E inc cutoff pre w)))) /\
  list_of_gen (fst (process_data E {| yielded := pre ++ m :: post; raised := r |}
                      inc cutoff w))
  = Raise e.
Proof.
  intros Hpre Hm.
  assert (Heq : fst (process_data E {| yielded := pre ++ m :: post; raised := r |}
                       inc cutoff w)
                = gen_seq (fst (process_records E inc cutoff pre w))
                    (fst (process_record E inc cutoff m
                            (snd (process_records E inc cutoff pre w))))).
  { unfold process_data. cbn [yielded raised].
    rewrite process_records_app.
    destruct (process_records E inc cutoff pre w) as [g1 w1].
    cbn [fst snd] in *. rewrite Hpre. cbn [process_records].
    destruct (process_record E inc cutoff m w1) as [g w2].
    cbn [fst snd] in *. rewrite Hm. cbn [fst].
    apply gen_seq_raised_l with e.
    now rewrite (@gen_seq_raised _ g1 g Hpre). }
  split; [exact Heq|]. rewrite Heq. unfold list_of_gen.
  now rewrite (@gen_seq_raised _ _ _ Hpre), Hm.
Qed.

Lemma scan_stops_at_first_error_witness :
  list_of_gen
    (fst (process_data example_env
            {| yielded := [example_record] ++ example_stray :: [example_record];
               raised := None |}
            true 0 world0))
  = Raise (KeyError "commence_time").
Proof.
  apply (@scan_stops_at_first_error example_env true 0 [example_record]
           example_stray [example_record] None world0
           (KeyError "commence_time")).
  - vm_compute. reflexivity.
  - vm_compute. reflexivity.
Defined.

(** X5.  With [include_started_matches] false, a record whose start time
    is before the clock reading is skipped as soon as its
    ["commence_time"] is read: nothing is yielded, nothing raised, and no
    other field of the record is looked at.  A record that has not started
    (a start time equal to the clock counts as not started) is scanned as
    with the flag true, with [hours_to_start] taken from a second reading
    of the clock. *)
Theorem started_records_are_skipped (E : env) (cutoff : Q) (m : value)
    (w : world) (c : value) (start : Z) :
  getitem m "commence_time" = Ok c ->
  py_int E c = Ok start ->
  (inject_Z start < clock E (clock_reads w) ->
   process_record E false cutoff m w = (gen_empty, snd (time_time E w))) /\
  (clock E (clock_reads w) <= inject_Z start ->
   forall home away lg bms qs,
     getitem m "home_team" = Ok home ->
     getitem m "away_team" = Ok away ->
     getitem m "sport_key" = Ok lg ->
     getitem m "bookmakers" = Ok bms ->
     read_quotes bms = Ok qs ->
     process_record E false cutoff m w
     = (process_match
          {| h_match_name :=
               (format_value E home ++ " v. " ++ format_value E away)%string;
             h_start_time := start;
             h_time_to_start :=
               (inject_Z start - clock E (S (clock_reads w))) / 3600;
             h_league := lg |} qs cutoff,
        snd (time_time E (snd (time_time E w))))).
Proof.
  intros Hc Hstart. split.
  - intros Hlt. unfold process_record. rewrite Hc. simpl. rewrite Hstart.
    simpl. apply Qltb_lt in Hlt. now rewrite Hlt.
  - intros Hge home away lg bms qs Hhome Haway Hlg Hbms Hqs.
    unfold process_record. rewrite Hc. simpl. rewrite Hstart. simpl.
    apply Qltb_ge in Hge. rewrite Hge.
    rewrite Hhome. simpl. rewrite Haway. simpl.
    rewrite Hlg. simpl. rewrite Hbms. simpl. rewrite Hqs. reflexivity.
Qed.

Lemma started_records_are_skipped_witness :
  process_record example_env false 0
    (VDict [("commence_time", VInt 500)]%string) world0
  = (gen_empty, snd (time_time example_env world0)).
Proof.
  apply (proj1 (@started_records_are_skipped example_env 0
                  (VDict [("commence_time", VInt 500)]%string) world0
                  (VInt 500) 500%Z eq_refl eq_refl)).
  reflexivity.
Defined.

(** X6.  Of a bookmaker only the first market is read: the markets after
    it do not change the quotes, whatever they hold.  A bookmaker whose
    market list is empty adds no quote, though its title is still read. *)
Theorem only_the_first_market_is_read (bookmaker title : value)
    (rest : list value) :
  getitem bookmaker "title" = Ok title ->
  (forall first others,
     getitem bookmaker "markets" = Ok (VList (first :: others)) ->
     read_bookmakers (bookmaker :: rest)
     = read_bookmakers
         (VDict [("title", title); ("markets", VList [first])]%string :: rest)) /\
  (getitem bookmaker "markets" = Ok (VList []) ->
   read_bookmakers (bookmaker :: rest) = read_bookmakers rest).
Proof.
  intros Htitle. split.
  - intros first others Hmarkets. cbn [read_bookmakers].
    rewrite Htitle, Hmarkets. reflexivity.
  - intros Hmarkets. cbn [read_bookmakers].
    rewrite Htitle, Hmarkets. simpl.
    destruct (read_bookmakers rest); reflexivity.
Qed.

Lemma only_the_first_market_is_read_witness :
  read_bookmakers [example_two_markets]
  = read_bookmakers
      [VDict [("title", VStr "X"); ("markets", VList [example_market])]%string].
Proof.
  apply (proj1 (@only_the_first_market_is_read example_two_markets (VStr "X")
                  [] eq_refl)
           example_market [VStr "not a market"]).
  reflexivity.
Defined.

Section Stability.
Variable A : Type.
Variable key : A -> Q.

Lemma insert_desc_filter (k : Q) (x : A) (l : list A) :
  filter (fun y => Qeq_bool (key y) k) (insert_desc key x l)
  = filter (fun y => Qeq_bool (key y) k) (x :: l).
Proof.
  induction l as [|y l IH]; [reflexivity|].
  cbn [insert_desc]. destruct (Qltb (key x) (key y)) eqn:Hlt; [|reflexivity].
  cbn [filter] in *. rewrite IH.
  destruct (Qeq_bool (key x) k) eqn:Hx; [|reflexivity].
  destruct (Qeq_bool (key y) k) eqn:Hy; [|reflexivity].
  exfalso. apply Qeq_bool_iff in Hx, Hy. apply Qltb_lt in Hlt.
  rewrite Hx, Hy in Hlt. exact (Qlt_irrefl k Hlt).
Qed.

(** The sort is stable: the elements of one key keep their order. *)
Lemma sort_desc_stable (k : Q) (l : list A) :
  filter (fun y => Qeq_bool (key y) k) (sort_desc key l)
  = filter (fun y => Qeq_bool (key y) k) l.
Proof.
  induction l as [|x l IH]; [reflexivity|].
  cbn [sort_desc fold_right]. fold (sort_desc key l).
  rewrite insert_desc_filter. cbn [filter]. now rewrite IH.
Qed.
End Stability.

(** X7.  After lines 104-126 [outcomes_data] maps every distinct outcome
    name of the quotes, in the order the names are first seen, to the
    candidates of that outcome (and of no other), sorted from the highest
    price down; candidates of equal price stay in the order the bookmakers
    come in, so the first bookmaker to offer the top price is ranked
    first. *)
Theorem candidate_lists_are_ranked (qs : list Quote) :
  dict_keys (sort_all (collect qs)) = outcome_names_of qs /\
  NoDup (dict_keys (sort_all (collect qs))) /\
  forall n l,
    dict_get (sort_all (collect qs)) n = Some l ->
    In n (outcome_names_of qs) /\
    l <> [] /\
    Permutation l (candidates_of qs n) /\
    descending (@snd value Q) l /\
    (forall x, In x l <->
               In {| outcome_name := n; bookie_name := fst x; odd := snd x |} qs) /\
    (forall p, filter (fun x => Qeq_bool (snd x) p) l
               = filter (fun x => Qeq_bool (snd x) p) (candidates_of qs n)).
Proof.
  rewrite sort_all_collect, ranking_keys.
  split; [reflexivity|]. split; [apply outcome_names_nodup|].
  intros n l Hget.
  assert (Hin : In n (outcome_names_of qs)).
  { destruct (in_dec string_dec n (outcome_names_of qs)) as [H|H];
      [assumption|].
    unfold ranking in Hget. rewrite tabulate_get_notin in Hget by assumption.
    discriminate. }
  rewrite (@ranking_get qs n Hin) in Hget. injection Hget as <-.
  split; [assumption|]. split; [now apply ranked_nonempty|].
  split; [apply sort_desc_perm|]. split; [apply sort_desc_sorted|].
  split; [intros x; apply ranked_in|].
  intros p. apply sort_desc_stable.
Qed.

Lemma candidate_lists_are_ranked_witness :
  dict_get (sort_all (collect example_quotes)) "B"
  = Some [(VStr "Y", 22 # 10); (VStr "X", 14 # 10)] /\
  Permutation [(VStr "Y", 22 # 10); (VStr "X", 14 # 10)]
              (candidates_of example_quotes "B").
Proof.
  assert (H : dict_get (sort_all (collect example_quotes)) "B"
              = Some [(VStr "Y", 22 # 10); (VStr "X", 14 # 10)])
    by reflexivity.
  split; [exact H|].
  exact (proj1 (proj2 (proj2 (proj2 (proj2 (candidate_lists_are_ranked
           example_quotes)) "B"%string _ H)))).
Defined.

(* ================================================================== *)
(** * Further properties of the requests *)
(* ================================================================== *)

Section Requests.
Variable E : env.

Lemma handle_faulty_response_spec (r : response) :
  exn_response (handle_faulty_response r) = Some r /\
  (is_authentication (handle_faulty_response r) = true <-> status_code r = 401%Z) /\
  (is_rate_limit (handle_faulty_response r) = true <-> status_code r = 429%Z).
Proof.
  unfold handle_faulty_response.
  destruct (Z.eqb_spec (status_code r) 401) as [H1|H1];
    [|destruct (Z.eqb_spec (status_code r) 429) as [H2|H2]];
    simpl; (split; [reflexivity|]); split; split; intros H;
    try discriminate; try reflexivity; try lia.
Qed.

Lemma get_data_result key sport region w :
  fst (get_data E key sport region w)
  = match requests_get E (fst (odds_request E key region sport))
                       (snd (odds_request E key region sport)) with
    | Raise e => Raise e
    | Ok r => if ok r then json r else Raise (handle_faulty_response r)
    end.
Proof.
  unfold get_data, bindM, http_get, raise, lift, odds_request. simpl.
  destruct (requests_get E _ _) as [r|e]; [|reflexivity].
  now destruct (ok r).
Qed.

Lemma get_sports_result key w :
  fst (get_sports E key w)
  = match requests_get E (fst (sports_request E key))
                       (snd (sports_request E key)) with
    | Raise e => Raise e
    | Ok r =>
        if ok r then
          bind (json r) (fun j => bind (py_iter j)
                                    (fun items => get_sports_loop items []))
        else Raise (handle_faulty_response r)
    end.
Proof.
  unfold get_sports, bindM, http_get, raise, lift, sports_request. simpl.
  destruct (requests_get E _ _) as [r|e]; [|reflexivity].
  now destruct (ok r).
Qed.
End Requests.

(** X8.  When the answer to a request has a 4xx or 5xx status, neither
    [get_data] nor [get_sports] returns: each raises an exception that
    carries the response, an [AuthenticationException] exactly when the
    status is 401 and a [RateLimitException] exactly when it is 429.  Any
    other status is taken as success, and [get_data] then returns the
    decoded body as it is. *)
Theorem faulty_responses_are_raised (E : env) (key sport region : string)
    (w : world) (r : response) :
  (requests_get E (fst (odds_request E key region sport))
                  (snd (odds_request E key region sport)) = Ok r ->
   ((400 <= status_code r < 600)%Z ->
    exists e,
      fst (get_data E key sport region w) = Raise e /\
      exn_response e = Some r /\
      (is_authentication e = true <-> status_code r = 401%Z) /\
      (is_rate_limit e = true <-> status_code r = 429%Z)) /\
   (~ (400 <= status_code r < 600)%Z ->
    fst (get_data E key sport region w) = json r)) /\
  (requests_get E (fst (sports_request E key)) (snd (sports_request E key))
   = Ok r ->
   (400 <= status_code r < 600)%Z ->
   exists e,
     fst (get_sports E key w) = Raise e /\
     exn_response e = Some r /\
     (is_authentication e = true <-> status_code r = 401%Z) /\
     (is_rate_limit e = true <-> status_code r = 429%Z)).
Proof.
  assert (Hok : (400 <= status_code r < 600)%Z <-> ok r = false).
  { unfold ok. rewrite negb_false_iff, andb_true_iff.
    rewrite Z.leb_le, Z.ltb_lt. reflexivity. }
  split.
  - intros Hreq. rewrite get_data_result, Hreq. split.
    + intros Hst. apply Hok in Hst. rewrite Hst.
      exists (handle_faulty_response r). split; [reflexivity|].
      apply handle_faulty_response_spec.
    + intros Hst. destruct (ok r) eqn:Hr; [reflexivity|].
      exfalso. apply Hst. now apply Hok.
  - intros Hreq Hst. rewrite get_sports_result, Hreq.
    apply Hok in Hst. rewrite Hst.
    exists (handle_faulty_response r). split; [reflexivity|].
    apply handle_faulty_response_spec.
Qed.

Lemma faulty_responses_are_raised_witness :
  exists e,
    fst (get_data example_env "k" "tennis_wta" "eu" world0) = Raise e /\
    exn_response e = Some {| status_code := 502; body := None |} /\
    (is_authentication e = true <-> 502%Z = 401%Z) /\
    (is_rate_limit e = true <-> 502%Z = 429%Z).
Proof.
  apply (proj1 (proj1 (@faulty_responses_are_raised example_env "k"%string
                  "tennis_wta"%string "eu"%string world0
                  {| status_code := 502; body := None |}) eq_refl)).
  simpl. lia.
Defined.

Section Listing.

Opaque popular_sports.

Lemma get_sports_loop_spec (items : list value) :
  forall acc sports,
    get_sports_loop items acc = Ok sports ->
    sports = (acc ++ flat_map selected_key items)%list.
Proof.
  induction items as [|item items IH]; intros acc sports; simpl.
  - intros [= <-]. now rewrite app_nil_r.
  - destruct item as [| | | | | |d]; simpl; try discriminate.
    unfold skipped.
    destruct (eq_True match dict_get d "has_outrights" with
                      | Some x => x
                      | None => VNone
                      end); simpl.
    + destruct (negb (truthy match dict_get d "active" with
                             | Some x => x
                             | None => VBool false
                             end)); simpl.
      * apply IH.
      * unfold dict_getitem.
        destruct (dict_get d "key") as [[| | | | k | |]|]; simpl;
          try discriminate.
        fold (popular k). destruct (popular k); intros H; apply IH in H.
        -- now rewrite <- app_assoc in H.
        -- exact H.
    + unfold dict_getitem.
      destruct (dict_get d "key") as [[| | | | k | |]|]; simpl;
        try discriminate.
      fold (popular k). destruct (popular k); intros H; apply IH in H.
      * now rewrite <- app_assoc in H.
      * exact H.
Qed.

Transparent popular_sports.

Lemma selected_key_in (item : value) (k : string) :
  In k (selected_key item) <->
  exists d, item = VDict d /\ dict_get d "key" = Some (VStr k) /\
            popular k = true /\ skipped d = false.
Proof.
  split.
  - destruct item as [| | | | | |d]; simpl; try tauto.
    destruct (skipped d) eqn:Hs; [intros []|].
    destruct (dict_get d "key") as [[| | | | k' | |]|] eqn:Hk; try (intros []).
    destruct (popular k') eqn:Hp; [|intros []].
    intros [<-|[]]. exists d. repeat split; assumption.
  - intros [d [-> [Hk [Hp Hs]]]]. simpl. rewrite Hs, Hk, Hp. now left.
Qed.
End Listing.

(** X9.  When [get_sports] returns, it returns the keys of the listed
    sports it keeps, in the order of the listing: a key is returned
    exactly when some item of the listing has it as ["key"], the key in
    lower case contains one of the six popular sports, and the item is not
    one with [has_outrights] equal to [True] whose ["active"] is missing or
    false. *)
Theorem get_sports_keeps_popular_sports (E : env) (key : string) (w : world)
    (r : response) (j : value) (items : list value) (sports : list string) :
  requests_get E (fst (sports_request E key)) (snd (sports_request E key))
  = Ok r ->
  json r = Ok j ->
  py_iter j = Ok items ->
  fst (get_sports E key w) = Ok sports ->
  sports = flat_map selected_key items /\
  forall k,
    In k sports <->
    exists d, In (VDict d) items /\ dict_get d "key" = Some (VStr k) /\
              popular k = true /\ skipped d = false.
Proof.
  intros Hreq Hj Hitems Hget.
  rewrite get_sports_result, Hreq in Hget.
  destruct (ok r); [|discriminate].
  rewrite Hj in Hget. simpl in Hget. rewrite Hitems in Hget. simpl in Hget.
  apply get_sports_loop_spec in Hget. simpl in Hget. subst sports.
  split; [reflexivity|]. intros k. rewrite in_flat_map. split.
  - intros [item [Hin Hk]]. apply selected_key_in in Hk as [d [-> H]].
    now exists d.
  - intros [d [Hin H]]. exists (VDict d). split; [assumption|].
    apply selected_key_in. now exists d.
Qed.

Lemma get_sports_keeps_popular_sports_witness :
  ["Basketball_NBA"%string] = flat_map selected_key example_listing /\
  forall k,
    In k ["Basketball_NBA"%string] <->
    exists d, In (VDict d) example_listing /\
              dict_get d "key" = Some (VStr k) /\
              popular k = true /\ skipped d = false.
Proof.
  apply (@get_sports_keeps_popular_sports
           {| requests_get := fun _ _ =>
                Ok {| status_code := 200; body := Some (VList example_listing) |};
              quote := fun s => s;
              clock := fun _ => 0;
              repr := fun _ => ""%string;
              int_of_str := fun _ => Raise (ValueError "") |}
           "k"%string world0
           {| status_code := 200; body := Some (VList example_listing) |}
           (VList example_listing) example_listing);
    reflexivity.
Defined.

(* ================================================================== *)
(** * Further properties of the orchestrator *)
(* ================================================================== *)

Section Logging.
Variable E : env.
Implicit Types (key region sport : string) (w : world).








End Logging.



Section Flatten.

Lemma chain_from_iterable_app (pre post : list value) :
  chain_from_iterable (pre ++ post)
  = gen_seq (chain_from_iterable pre) (chain_from_iterable post).
Proof.
  induction pre as [|r pre IH]; cbn [app chain_from_iterable].
  - now rewrite gen_seq_empty_l.
  - destruct (py_iter r) as [l|e]; [|reflexivity].
    rewrite IH. unfold gen_seq. cbn [raised yielded].
    destruct (raised (chain_from_iterable pre)) eqn:Hp;
      cbn [raised yielded]; rewrite ?Hp, ?app_assoc; reflexivity.
Qed.

Lemma scanned_entries_app (pre post : list value) :
  scanned_entries (pre ++ post)
  = gen_seq (scanned_entries pre) (scanned_entries post).
Proof.
  unfold scanned_entries, gen_filter. rewrite chain_from_iterable_app.
  unfold gen_seq. cbn [raised yielded].
  destruct (raised (chain_from_iterable pre)) eqn:Hp;
    cbn [raised yielded]; rewrite ?Hp, ?filter_app; reflexivity.
Qed.

Lemma scanned_entries_strings (r : value) (l : list value) :
  py_iter r = Ok l ->
  Forall (fun x => not_message x = false) l ->
  scanned_entries [r] = gen_empty.
Proof.
  intros Hr Hl. unfold scanned_entries, gen_filter.
  cbn [chain_from_iterable]. rewrite Hr. cbn [yielded raised gen_empty].
  rewrite app_nil_r. unfold gen_empty. f_equal. clear Hr.
  induction Hl as [|x l Hx _ IH]; [reflexivity|].
  cbn [filter]. now rewrite Hx.
Qed.

Lemma chain_not_iterable (results : list value) (r : value) (e : exn) :
  In r results -> py_iter r = Raise e ->
  exists e', raised (chain_from_iterable results) = Some e'.
Proof.
  induction results as [|r' results IH]; [intros []|].
  intros [->|Hin] Hr; cbn [chain_from_iterable].
  - rewrite Hr. now exists e.
  - destruct (py_iter r') as [l|e0]; [|now exists e0].
    cbn [raised]. now apply IH.
Qed.
End Flatten.

(** X11.  What a sport contributes when its answer is not a list.  A dict
    (an error envelope that came with a success status) or a string
    contributes no entry: its keys, or its characters, are strings, and
    the filter drops them.  An answer that cannot be iterated ([null], a
    number, a boolean) makes the whole scan raise, whatever the other
    sports returned. *)
Theorem answers_that_are_not_lists (E : env) (pre post : list value) :
  (forall d, scanned_entries (pre ++ VDict d :: post)
             = scanned_entries (pre ++ post)) /\
  (forall s, scanned_entries (pre ++ VStr s :: post)
             = scanned_entries (pre ++ post)) /\
  (forall r e inc cutoff w,
     py_iter r = Raise e ->
     exists e',
       list_of_gen (fst (process_data E (scanned_entries (pre ++ r :: post))
                           inc cutoff w))
       = Raise e').
Proof.
  assert (Hdrop : forall r l,
            py_iter r = Ok l ->
            Forall (fun x => not_message x = false) l ->
            scanned_entries (pre ++ r :: post) = scanned_entries (pre ++ post)).
  { intros r l Hr Hl.
    change (r :: post) with ([r] ++ post)%list.
    rewrite !scanned_entries_app, (scanned_entries_strings r Hr Hl).
    now rewrite gen_seq_empty_l. }
  split; [|split].
  - intros d. apply (Hdrop (VDict d) (map (fun kv => VStr (fst kv)) d) eq_refl).
    apply Forall_forall. intros x Hx.
    apply in_map_iff in Hx as [kv [<- _]]. reflexivity.
  - intros s. apply (Hdrop (VStr s) (chars s) eq_refl).
    induction s as [|a s IH]; simpl; constructor; [reflexivity | exact IH].
  - intros r e inc cutoff w Hr.
    destruct (@chain_not_iterable (pre ++ r :: post) r e) as [e' He'];
      [apply in_or_app; right; now left | assumption |].
    unfold process_data, scanned_entries, gen_filter. cbn [yielded raised].
    rewrite He'.
    destruct (process_records E inc cutoff _ w) as [g w1]. cbn [fst].
    unfold list_of_gen, gen_seq.
    destruct (raised g) as [e0|] eqn:Hg.
    + rewrite Hg. now exists e0.
    + cbn [raised]. now exists e'.
Qed.

Lemma answers_that_are_not_lists_witness :
  exists e',
    list_of_gen
      (fst (process_data example_env
              (scanned_entries ([VList [example_record]] ++ VNone :: []))
              true 0 world0))
    = Raise e'.
Proof.
  apply (proj2 (proj2 (answers_that_are_not_lists example_env
                         [VList [example_record]] []))
           VNone (TypeError "object is not iterable")).
  reflexivity.
Defined.

(* ================================================================== *)
(** * Further properties of the bankroll allocation *)
(* ================================================================== *)

Section AllocationMore.
Implicit Types (odds : list (string * candidate)) (total bankroll : Q).

(** The percentages add up to [100 * implied / total]. *)
Lemma allocation_loop_total odds total bankroll :
  forall acc tp allocations tp',
    allocation_loop odds total bankroll acc tp = Ok (allocations, tp') ->
    ~ total == 0 ->
    tp' == tp + 100 * implied (dict_values odds) / total.
Proof.
  induction odds as [|[outcome [bookie price]] odds IH];
    intros acc tp allocations tp' Hloop Ht; simpl in Hloop.
  - injection Hloop as _ <-. unfold implied. simpl. rewrite sum_nil.
    field. assumption.
  - unfold inverse, divide in Hloop.
    destruct (Qzero price); [discriminate|]. simpl in Hloop.
    destruct (Qzero total); [discriminate|]. simpl in Hloop.
    apply IH in Hloop; [|assumption]. rewrite Hloop.
    unfold implied, dict_values. simpl. rewrite !sum_cons.
    generalize (1 / price). intros x. field. assumption.
Qed.

Lemma allocation_loop_raises odds total bankroll :
  forall acc tp,
    Exists (fun kv => snd (snd kv) == 0) odds \/ (total == 0 /\ odds <> []) ->
    allocation_loop odds total bankroll acc tp
    = Raise (ZeroDivisionError "division by zero").
Proof.
  induction odds as [|[outcome [bookie price]] odds IH]; intros acc tp H.
  - destruct H as [H|[_ H]]; [inversion H | contradiction].
  - simpl. unfold inverse, divide.
    destruct (Qzero price) eqn:Hp; [reflexivity|]. simpl.
    destruct (Qzero total) eqn:Ht; [reflexivity|]. simpl.
    apply IH. destruct H as [H|[H _]].
    + left. inversion H as [? ? H0|]; subst; [|assumption].
      simpl in H0. apply Qzero_iff in H0. congruence.
    + apply Qzero_iff in H. congruence.
Qed.
End AllocationMore.

(** X12.  The percentages [calculate_bankroll_allocation] hands out add up
    to [100 * (sum of 1/price) / total_implied_odds].  When that sum lies
    in [99.5, 100.5], as it does when [total_implied_odds] is the sum of
    [1/price], the call prints nothing; otherwise it prints the warning
    once, with the sum, and returns the same allocations.  On an empty
    [odds_dict] the sum is 0 and the warning is printed. *)
Theorem allocation_warns_outside_the_band (format_2f : Q -> string)
    (odds : list (string * candidate)) (total bankroll : Q) (w : world) :
  NoDup (dict_keys odds) ->
  Forall (fun kv => ~ snd (snd kv) == 0) odds ->
  ~ total == 0 ->
  exists total_percentage,
    total_percentage == 100 * implied (dict_values odds) / total /\
    calculate_bankroll_allocation format_2f odds total bankroll w
    = (Ok (map (fun kv => (fst kv, allocation_of total bankroll (snd kv))) odds),
       if Qle_bool (995 # 10) total_percentage
          && Qle_bool total_percentage (1005 # 10)
       then w
       else {| clock_reads := clock_reads w;
               requests := requests w;
               stdout := (stdout w
                          ++ [("Warning: Total allocation percentage is "
                               ++ format_2f total_percentage
                               ++ "%, not 100%")%string])%list |}) /\
    (total == implied (dict_values odds) ->
     snd (calculate_bankroll_allocation format_2f odds total bankroll w) = w) /\
    (odds = [] ->
     stdout (snd (calculate_bankroll_allocation format_2f odds total bankroll w))
     <> stdout w).
Proof.
  intros Hnd Hnz Ht.
  destruct (@allocation_loop_ok odds total bankroll [] 0 Hnd Hnz Ht)
    as [tp Hloop].
  pose proof (@allocation_loop_total odds total bankroll [] 0 _ tp Hloop Ht)
    as Htp.
  exists tp.
  assert (Hsum : tp == 100 * implied (dict_values odds) / total)
    by (rewrite Htp; ring).
  split; [exact Hsum|].
  assert (Hcalc : calculate_bankroll_allocation format_2f odds total bankroll w
    = (Ok (map (fun kv => (fst kv, allocation_of total bankroll (snd kv))) odds),
       if Qle_bool (995 # 10) tp && Qle_bool tp (1005 # 10)
       then w
       else {| clock_reads := clock_reads w;
               requests := requests w;
               stdout := (stdout w
                          ++ [("Warning: Total allocation percentage is "
                               ++ format_2f tp ++ "%, not 100%")%string])%list |})).
  { unfold calculate_bankroll_allocation. rewrite Hloop. simpl.
    now destruct (Qle_bool (995 # 10) tp && Qle_bool tp (1005 # 10)). }
  split; [exact Hcalc|]. split.
  - intros Heq. rewrite Hcalc. simpl.
    assert (H100 : tp == 100) by (rewrite Hsum, <- Heq; field; assumption).
    rewrite H100. reflexivity.
  - intros ->. rewrite Hcalc. simpl.
    assert (H0 : tp == 0).
    { rewrite Hsum. unfold implied. simpl. rewrite sum_nil. field. assumption. }
    rewrite H0. simpl. intros Habs.
    apply (f_equal (@List.length string)) in Habs.
    rewrite length_app in Habs. simpl in Habs. lia.
Qed.

Lemma allocation_warns_outside_the_band_witness :
  snd (calculate_bankroll_allocation (fun _ => "x"%string) example_odds
         (47 # 55) 1000 world0) = world0.
Proof.
  destruct (@allocation_warns_outside_the_band (fun _ => "x"%string)
              example_odds (47 # 55) 1000 world0) as [tp [_ [_ [H _]]]].
  - repeat constructor; simpl; intuition discriminate.
  - repeat constructor; concrete_Q.
  - concrete_Q.
  - apply H. vm_compute. reflexivity.
Defined.

(** X13.  [calculate_bankroll_allocation] raises [ZeroDivisionError], and
    prints nothing, when a chosen price is zero, and also when
    [total_implied_odds] is zero and there is at least one outcome. *)
Theorem allocation_divides_by_zero (format_2f : Q -> string)
    (odds : list (string * candidate)) (total bankroll : Q) (w : world) :
  Exists (fun kv => snd (snd kv) == 0) odds \/ (total == 0 /\ odds <> []) ->
  calculate_bankroll_allocation format_2f odds total bankroll w
  = (Raise (ZeroDivisionError "division by zero"), w).
Proof.
  intros H. unfold calculate_bankroll_allocation.
  now rewrite allocation_loop_raises.
Qed.

Lemma allocation_divides_by_zero_witness :
  calculate_bankroll_allocation (fun _ => "x"%string) example_odds 0 1000 world0
  = (Raise (ZeroDivisionError "division by zero"), world0).
Proof.
  apply allocation_divides_by_zero. right. split; [reflexivity | discriminate].
Defined.

(* ================================================================== *)
(** * Further properties of the window *)
(* ================================================================== *)

Section Colour.

Lemma Qtruncate_nonneg (q : Q) (z : Z) :
  (0 <= z)%Z -> inject_Z z <= q -> (z <= Qtruncate q)%Z.
Proof.
  intros Hz Hq. unfold Qtruncate.
  assert (H0 : 0 <= q).
  { apply Qle_trans with (inject_Z z); [|assumption].
    change 0 with (inject_Z 0). now rewrite <- Zle_Qle. }
  apply Qle_bool_iff in H0. rewrite H0.
  rewrite <- (Qfloor_Z z). now apply Qfloor_resp_le.
Qed.
End Colour.

(** X14.  For every opportunity the scanner yields, the green intensity of
    its profit cell, [min(int(profit_percentage * 25), 150)], lies between
    0 and 150, so the three arguments of [QColor] lie between 105 and 255;
    the intensity is at its cap of 150 from a profit of 6 percent on. *)
Theorem profit_colour_is_valid (h : Header) (qs : list Quote) (cutoff : Q)
    (o : Opportunity) :
  In o (yielded (process_match h qs cutoff)) ->
  (0 <= intensity o <= 150)%Z /\
  (let '(red, green, blue) := profit_colour o in
   (105 <= red <= 255 /\ green = 255 /\ 105 <= blue <= 255)%Z) /\
  (6 <= profit_percentage o -> intensity o = 150%Z).
Proof.
  intros Ho.
  apply process_match_yielded in Ho as [cs [c [_ [_ [_ [Ha ->]]]]]].
  apply is_arbitrage_iff in Ha as [[H0 H1] _].
  assert (Hpp : 0 <= profit_percentage (opportunity h (outcome_names_of qs) c) * 25).
  { unfold profit_percentage. simpl. lra. }
  assert (Hint : (0 <= intensity (opportunity h (outcome_names_of qs) c) <= 150)%Z).
  { unfold intensity. split; [|apply Z.le_min_r].
    apply Z.min_glb; [|lia].
    apply Qtruncate_nonneg; [lia | exact Hpp]. }
  split; [exact Hint|]. split.
  - unfold profit_colour. lia.
  - intros H6. unfold intensity. apply Z.min_r.
    apply Qtruncate_nonneg; [lia|].
    change (inject_Z 150) with (150 # 1). lra.
Qed.

Lemma profit_colour_is_valid_witness :
  In (opportunity example_header (outcome_names_of example_quotes)
        [(VStr "X", 25 # 10); (VStr "Y", 22 # 10)])
     (yielded (process_match example_header example_quotes 0)) /\
  (0 <= intensity (opportunity example_header (outcome_names_of example_quotes)
                     [(VStr "X", 25 # 10); (VStr "Y", 22 # 10)]) <= 150)%Z.
Proof.
  assert (H : In (opportunity example_header (outcome_names_of example_quotes)
                    [(VStr "X", 25 # 10); (VStr "Y", 22 # 10)])
                 (yielded (process_match example_header example_quotes 0)))
    by (left; reflexivity).
  split; [exact H|].
  exact (proj1 (@profit_colour_is_valid example_header example_quotes 0 _ H)).
Defined.



Section Suffixes.
Implicit Types (s a b : string).

Lemma endswith_refl s : endswith s s = true.
Proof. destruct s; cbn [endswith]; now rewrite String.eqb_refl. Qed.

Lemma endswith_step (c : ascii) s a :
  endswith s a = true -> endswith (String c s) a = true.
Proof.
  intros H. cbn [endswith]. rewrite H.
  now destruct (String.eqb (String c s) a).
Qed.

Lemma endswith_append s a : endswith (s ++ a) a = true.
Proof.
  induction s as [|c s IH]; [apply endswith_refl|].
  now apply endswith_step.
Qed.

Lemma endswith_length s a :
  endswith s a = true -> (String.length a <= String.length s)%nat.
Proof.
  induction s as [|c s IH]; cbn [endswith].
  - destruct (String.eqb_spec "" a) as [<-|_]; [simpl; lia | discriminate].
  - destruct (String.eqb_spec (String c s) a) as [<-|_]; [lia|].
    intros H. apply IH in H. simpl. lia.
Qed.

(** Of two suffixes of a string, the shorter is a suffix of the longer. *)
Lemma endswith_chain s a b :
  endswith s a = true -> endswith s b = true ->
  (String.length a <= String.length b)%nat ->
  endswith b a = true.
Proof.
  induction s as [|c s IH]; cbn [endswith].
  - destruct (String.eqb_spec "" a) as [<-|_]; [|discriminate].
    destruct (String.eqb_spec "" b) as [<-|_]; [reflexivity | discriminate].
  - destruct (String.eqb_spec (String c s) b) as [<-|_].
    + intros Ha _ _. exact Ha.
    + destruct (String.eqb_spec (String c s) a) as [<-|_].
      * intros _ Hb Hlen. apply endswith_length in Hb. simpl in Hlen. lia.
      * apply IH.
Qed.

Lemma lower_append s a : lower (s ++ a) = (lower s ++ lower a)%string.
Proof. induction s as [|c s IH]; simpl; [reflexivity | now rewrite IH]. Qed.

Lemma endswith_lower s a :
  endswith s a = true -> endswith (lower s) (lower a) = true.
Proof.
  induction s as [|c s IH]; cbn [endswith].
  - destruct (String.eqb_spec "" a) as [<-|_]; [reflexivity | discriminate].
  - destruct (String.eqb_spec (String c s) a) as [<-|_];
      [intros _; apply endswith_refl|].
    intros H. cbn [lower]. now apply endswith_step, IH.
Qed.

Lemma json_excludes_csv s :
  endswith s ".json" = true -> endswith s ".csv" = false.
Proof.
  intros Hj. destruct (endswith s ".csv") eqn:Hc; [|reflexivity].
  assert (H : endswith ".json" ".csv" = true)
    by (apply (endswith_chain s); [assumption | assumption | simpl; lia]).
  discriminate H.
Qed.
End Suffixes.

(** X16.  The file [export_results] writes.  With the JSON filter the file
    is always JSON and its name ends, in lower case, with [.json].  With
    the CSV filter the extension [.csv] is added unless the name ends with
    it in any letter case, but the file is written as CSV only when the
    name ends with [.csv] in lower case: a name typed with [.CSV] is
    written as JSON.  With neither filter the name is kept, and the file is
    CSV exactly when the name ends with [.csv]. *)
Theorem export_format_follows_the_name (filter_used file_path : string) :
  (contains "json" filter_used = true ->
   contains "csv" filter_used = false ->
   export_format (export_path filter_used file_path) = JSON /\
   endswith (lower (export_path filter_used file_path)) ".json" = true) /\
  (contains "json" filter_used = false ->
   contains "csv" filter_used = true ->
   endswith (lower (export_path filter_used file_path)) ".csv" = true /\
   (export_format (export_path filter_used file_path) = CSV <->
    endswith (lower file_path) ".csv" = false \/ endswith file_path ".csv" = true)) /\
  (contains "json" filter_used = false ->
   contains "csv" filter_used = false ->
   export_path filter_used file_path = file_path /\
   (export_format file_path = CSV <-> endswith file_path ".csv" = true)).
Proof.
  assert (Hfmt_csv : forall s, endswith s ".csv" = true -> export_format s = CSV).
  { intros s Hs. unfold export_format.
    destruct (endswith s ".json") eqn:Hj.
    - apply json_excludes_csv in Hj. congruence.
    - now rewrite Hs. }
  assert (Hfmt_other : forall s, endswith s ".csv" = false -> export_format s = JSON).
  { intros s Hs. unfold export_format. rewrite Hs.
    now destruct (endswith s ".json"). }
  split; [|split].
  - intros Hj Hc. unfold export_path. rewrite Hj, Hc. cbn [andb].
    destruct (endswith (lower file_path) ".json") eqn:Hl; cbn [negb].
    + split; [|exact Hl]. apply Hfmt_other.
      destruct (endswith file_path ".csv") eqn:Hx; [|reflexivity].
      apply endswith_lower in Hx. change (lower ".csv") with ".csv" in Hx.
      apply json_excludes_csv in Hl. congruence.
    + split.
      * unfold export_format. now rewrite endswith_append.
      * rewrite lower_append. apply endswith_append.
  - intros Hj Hc. unfold export_path. rewrite Hj, Hc. cbn [andb].
    destruct (endswith (lower file_path) ".csv") eqn:Hl; cbn [negb].
    + split; [exact Hl|]. split.
      * intros Hf. right.
        destruct (endswith file_path ".csv") eqn:Hx; [reflexivity|].
        rewrite (Hfmt_other _ Hx) in Hf. discriminate.
      * intros [H|H]; [discriminate | now apply Hfmt_csv].
    + split; [rewrite lower_append; apply endswith_append|]. split.
      * intros _. now left.
      * intros _. apply Hfmt_csv, endswith_append.
  - intros Hj Hc. unfold export_path. rewrite Hj, Hc. cbn [andb].
    split; [reflexivity|]. split.
    + intros Hf. destruct (endswith file_path ".csv") eqn:Hx; [reflexivity|].
      rewrite (Hfmt_other _ Hx) in Hf. discriminate.
    + apply Hfmt_csv.
Qed.

Lemma export_format_follows_the_name_witness :
  export_format (export_path "CSV Files (*.csv)" "report.CSV") = CSV <->
  endswith (lower "report.CSV") ".csv" = false \/
  endswith "report.CSV" ".csv" = true.
Proof.
  apply (proj1 (proj2 (export_format_follows_the_name "CSV Files (*.csv)"
                         "report.CSV"))); reflexivity.
Defined.

Section Csv.
Variable F : formats.

Lemma length_flat_map_const {A B} (f : A -> list B) (l : list A) (n : nat) :
  (forall a, List.length (f a) = n) ->
  List.length (flat_map f l) = (n * List.length l)%nat.
Proof.
  intros H. induction l as [|a l IH]; simpl; [lia|].
  rewrite length_app, H, IH. lia.
Qed.

Lemma csv_header_length (show_allocation : bool) (first : Arb)
    (rest : list Arb) :
  List.length (csv_header show_allocation (first :: rest))
  = if show_allocation
    then (5 + 4 * List.length (best_outcome_odds (arb first)))%nat
    else 5%nat.
Proof.
  unfold csv_header. rewrite length_app. destruct show_allocation;
    [|reflexivity].
  rewrite (@length_flat_map_const _ _ _ _ 4%nat) by reflexivity.
  unfold dict_keys. rewrite length_map. reflexivity.
Qed.

Lemma csv_row_length (show_allocation : bool) (a : Arb) :
  List.length (csv_row F show_allocation a)
  = match bankroll_allocations a with
    | Some _ =>
        if show_allocation
        then (5 + 4 * List.length (best_outcome_odds (arb a)))%nat
        else 5%nat
    | None => 5%nat
    end.
Proof.
  unfold csv_row. rewrite length_app.
  destruct (bankroll_allocations a) as [allocations|]; [|reflexivity].
  destruct show_allocation; [|reflexivity].
  rewrite (@length_flat_map_const _ _ _ _ 4%nat).
  - unfold dict_keys. rewrite length_map. reflexivity.
  - intros outcome. now destruct (dict_get allocations outcome).
Qed.
End Csv.

(** X17.  In the CSV file the header has 5 columns and, with the
    allocations shown, 4 more for every outcome of the first opportunity,
    while the row of an opportunity that holds allocations has 5 cells and
    4 more for every outcome of its own: a row is as long as the header
    exactly when the opportunity has as many outcomes as the first one.
    Without the allocations the header and every row have 5 cells. *)
Theorem csv_rows_follow_their_own_outcomes (F : formats) (first : Arb)
    (rest : list Arb) (a : Arb) (allocations : list (string * Allocation)) :
  bankroll_allocations a = Some allocations ->
  List.length (csv_header true (first :: rest))
  = (5 + 4 * List.length (best_outcome_odds (arb first)))%nat /\
  List.length (csv_row F true a)
  = (5 + 4 * List.length (best_outcome_odds (arb a)))%nat /\
  (List.length (csv_row F true a) = List.length (csv_header true (first :: rest))
   <-> List.length (best_outcome_odds (arb a))
       = List.length (best_outcome_odds (arb first))) /\
  List.length (csv_header false (first :: rest)) = 5%nat /\
  List.length (csv_row F false a) = 5%nat.
Proof.
  intros Ha. rewrite !csv_header_length, !csv_row_length, Ha.
  repeat split; lia.
Qed.

Lemma csv_rows_follow_their_own_outcomes_witness :
  List.length
    (csv_row {| format_1f := fun _ => "x"%string;
                format_2f := fun _ => "x"%string;
                format_4f := fun _ => "x"%string |} true
       {| arb := opportunity example_header ["A"; "B"; "C"; "D"]%string
                   [(VStr "X", 5); (VStr "X", 5); (VStr "X", 5); (VStr "X", 5)];
          bankroll_allocations := Some [] |})
  = List.length
      (csv_header true
         [ {| arb := opportunity example_header ["A"; "B"]%string
                       [(VStr "X", 25 # 10); (VStr "Y", 22 # 10)];
              bankroll_allocations := Some [] |} ])
  <-> 4%nat = 2%nat.
Proof.
  apply (proj1 (proj2 (proj2 (@csv_rows_follow_their_own_outcomes
           {| format_1f := fun _ => "x"%string;
              format_2f := fun _ => "x"%string;
              format_4f := fun _ => "x"%string |}
           {| arb := opportunity example_header ["A"; "B"]%string
                       [(VStr "X", 25 # 10); (VStr "Y", 22 # 10)];
              bankroll_allocations := Some [] |}
           []
           {| arb := opportunity example_header ["A"; "B"; "C"; "D"]%string
                       [(VStr "X", 5); (VStr "X", 5); (VStr "X", 5); (VStr "X", 5)];
              bankroll_allocations := Some [] |}
           [] eq_refl)))).
Defined.

Section Stale.
Variable F : formats.

Lemma display_allocations_stored (bankroll : Q) (arbs : list Arb) :
  forall w shown w',
    display_allocations F bankroll arbs w = (Ok shown, w') ->
    Forall2 (fun a0 a =>
               arb a = arb a0 /\
               exists w0, fst (allocate F bankroll a0 w0)
                          = Ok (match bankroll_allocations a with
                                | Some allocations => allocations
                                | None => []
                                end) /\
                          bankroll_allocations a <> None)
            arbs shown.
Proof.
  induction arbs as [|a arbs IH]; intros w shown w'; cbn [display_allocations].
  - unfold ret. intros [= <- _]. constructor.
  - unfold bindM, ret.
    destruct (allocate F bankroll a w) as [[allocations|e] w1] eqn:Ha;
      [|discriminate].
    destruct (display_allocations F bankroll arbs w1) as [[rest'|e] w2] eqn:Hr;
      [|discriminate].
    intros [= <- _]. constructor; [|now apply (IH w1 rest' w2)].
    simpl. split; [reflexivity|]. exists w. rewrite Ha. split;
      [reflexivity | discriminate].
Qed.

Lemma ensure_allocations_kept (bankroll : Q) (arbs : list Arb) (w : world) :
  Forall (fun a => bankroll_allocations a <> None) arbs ->
  ensure_allocations F bankroll arbs w = (Ok arbs, w).
Proof.
  induction 1 as [|a arbs Ha _ IH]; cbn [ensure_allocations]; [reflexivity|].
  unfold bindM, ret in *.
  destruct (bankroll_allocations a); [|contradiction].
  now rewrite IH.
Qed.
End Stale.

(** X18.  Once [display_results] has stored the allocations of the
    opportunities, computed for the bankroll shown at that time,
    [export_results] computes none again: whatever the bankroll is at the
    time of the export, the opportunities are exported with the
    allocations they hold, and nothing is printed or raised. *)
Theorem export_keeps_displayed_allocations (F : formats)
    (bankroll bankroll' : Q) (arbs shown : list Arb) (w w1 w2 : world) :
  display_allocations F bankroll arbs w = (Ok shown, w1) ->
  ensure_allocations F bankroll' shown w2 = (Ok shown, w2) /\
  Forall2 (fun a0 a =>
             arb a = arb a0 /\
             exists w0 allocations,
               fst (allocate F bankroll a0 w0) = Ok allocations /\
               bankroll_allocations a = Some allocations)
          arbs shown.
Proof.
  intros Hd. pose proof (@display_allocations_stored F bankroll arbs w shown w1 Hd) as Hs.
  split.
  - apply ensure_allocations_kept.
    clear Hd. induction Hs as [|a0 a arbs shown [_ [w0 [_ Hne]]] _ IH];
      constructor; assumption.
  - eapply Forall2_impl; [|exact Hs]. simpl.
    intros a0 a [Harb [w0 [Hal Hne]]]. split; [assumption|].
    destruct (bankroll_allocations a) as [allocations|]; [|contradiction].
    now exists w0, allocations.
Qed.

Lemma export_keeps_displayed_allocations_witness :
  ensure_allocations example_formats 500
    (match fst (display_allocations example_formats 1000 [example_arb] world0)
     with Ok shown => shown | Raise _ => [] end) world0
  = (Ok (match fst (display_allocations example_formats 1000 [example_arb]
                      world0)
         with Ok shown => shown | Raise _ => [] end), world0).
Proof.
  apply (proj1 (@export_keeps_displayed_allocations example_formats 1000 500
                  [example_arb]
                  (match fst (display_allocations example_formats 1000
                                [example_arb] world0)
                   with Ok shown => shown | Raise _ => [] end)
                  world0
                  (snd (display_allocations example_formats 1000
                          [example_arb] world0))
                  world0 eq_refl)).
Defined.

(* ================================================================== *)
(** * What the scan can raise *)
(* ================================================================== *)

Section Plain.
Variable E : env.

Lemma raises_plain_bind {A B} (r : result A) (k : A -> result B) :
  raises_plain r -> (forall a, raises_plain (k a)) -> raises_plain (bind r k).
Proof.
  intros Hr Hk e. destruct r as [a|e0]; simpl.
  - apply Hk.
  - intros [= <-]. now apply Hr.
Qed.

Lemma raises_plain_mapM {A B} (f : A -> result B) (l : list A) :
  Forall (fun a => raises_plain (f a)) l -> raises_plain (mapM f l).
Proof.
  induction 1 as [|a l Ha _ IH]; intros e; simpl; [discriminate|].
  destruct (f a) as [b|e0] eqn:Hf.
  - destruct (mapM f l) as [bs|e1]; [discriminate|].
    intros [= <-]. now apply IH.
  - intros [= <-]. now apply Ha.
Qed.

Lemma raises_plain_mapM_all {A B} (f : A -> result B) (l : list A) :
  (forall a, raises_plain (f a)) -> raises_plain (mapM f l).
Proof.
  intros H. apply raises_plain_mapM. now apply Forall_forall.
Qed.

Ltac plain_leaf :=
  let e := fresh "e" in
  intros e; simpl; try discriminate; intros [= <-]; reflexivity.

Lemma dict_getitem_plain {V} (d : list (string * V)) (k : string) :
  raises_plain (dict_getitem d k).
Proof. unfold dict_getitem. destruct (dict_get d k); plain_leaf. Qed.

Lemma getitem_plain (v : value) (k : string) : raises_plain (getitem v k).
Proof.
  destruct v; simpl; try plain_leaf. apply dict_getitem_plain.
Qed.

Lemma getitem0_plain (v : value) : raises_plain (getitem0 v).
Proof.
  destruct v as [| | | |s|l|d]; simpl; try plain_leaf.
  - destruct s; plain_leaf.
  - destruct l; plain_leaf.
Qed.

Lemma py_iter_plain (v : value) : raises_plain (py_iter v).
Proof. destruct v; plain_leaf. Qed.

Lemma list_getitem_plain {A} (l : list A) (i : nat) :
  raises_plain (list_getitem l i).
Proof. unfold list_getitem. destruct (nth_error l i); plain_leaf. Qed.

Lemma inverse_plain (x : Q) : raises_plain (inverse x).
Proof. unfold inverse. destruct (Qzero x); plain_leaf. Qed.

Lemma read_outcome_plain (bookie outcome : value) :
  raises_plain (read_outcome bookie outcome).
Proof.
  unfold read_outcome.
  apply raises_plain_bind; [apply getitem_plain | intros n].
  apply raises_plain_bind; [apply getitem_plain | intros p].
  apply raises_plain_bind; [destruct n; plain_leaf | intros name].
  apply raises_plain_bind;
    [unfold as_price; destruct (as_number p); plain_leaf | intros price].
  plain_leaf.
Qed.

Lemma read_bookmakers_plain (bookmakers : list value) :
  raises_plain (read_bookmakers bookmakers).
Proof.
  induction bookmakers as [|b rest IH]; cbn [read_bookmakers]; [plain_leaf|].
  apply raises_plain_bind; [apply getitem_plain | intros bookie].
  apply raises_plain_bind; [apply getitem_plain | intros markets].
  apply raises_plain_bind.
  - destruct (negb (truthy markets)); [plain_leaf|].
    apply raises_plain_bind; [apply getitem0_plain | intros market].
    apply raises_plain_bind; [apply getitem_plain | intros outcomes].
    apply raises_plain_bind; [apply py_iter_plain | intros l].
    apply raises_plain_mapM_all. intros o. apply read_outcome_plain.
  - intros qs. apply raises_plain_bind; [exact IH | intros qs'; plain_leaf].
Qed.

Lemma read_quotes_plain (bookmakers : value) :
  raises_plain (read_quotes bookmakers).
Proof.
  unfold read_quotes.
  apply raises_plain_bind; [apply py_iter_plain | intros l].
  apply read_bookmakers_plain.
Qed.

Lemma implied_total_plain (prices : list Q) :
  raises_plain (implied_total prices).
Proof.
  unfold implied_total. apply raises_plain_bind.
  - apply raises_plain_mapM_all. apply inverse_plain.
  - intros inv. plain_leaf.
Qed.

Lemma best_prices_plain (outcomes_data : outcomes_dict) (names : list string) :
  forall best_odds, raises_plain (best_prices outcomes_data names best_odds).
Proof.
  induction names as [|name rest IH]; intros best_odds; cbn [best_prices];
    [plain_leaf|].
  apply raises_plain_bind; [apply dict_getitem_plain | intros l].
  destruct l; apply IH.
Qed.

Lemma zip_dict_plain (names : list string) (combination : list candidate)
    (idx : list nat) :
  forall best_odds, raises_plain (zip_dict names combination idx best_odds).
Proof.
  induction idx as [|i rest IH]; intros best_odds; cbn [zip_dict];
    [plain_leaf|].
  apply raises_plain_bind; [apply list_getitem_plain | intros name].
  apply raises_plain_bind; [apply list_getitem_plain | intros c].
  apply IH.
Qed.

Lemma evaluate_plain (h : Header) (names : list string) (cutoff : Q)
    (combination : list candidate) :
  stops_plain (evaluate h names cutoff combination).
Proof.
  unfold evaluate.
  match goal with |- stops_plain (match ?r with _ => _ end) =>
    assert (Hr : raises_plain r); [|destruct r as [[best_odds total]|e0]]
  end.
  - apply raises_plain_bind; [apply zip_dict_plain | intros best_odds].
    apply raises_plain_bind; [apply implied_total_plain | intros total].
    plain_leaf.
  - destruct (is_arbitrage cutoff total); intros e; discriminate.
  - intros e [= <-]. now apply Hr.
Qed.

Lemma gen_for_plain {A B} (l : list A) (body : A -> gen B) :
  (forall a, stops_plain (body a)) -> stops_plain (gen_for l body).
Proof.
  intros Hb. induction l as [|a l IH]; cbn [gen_for]; [intros e; discriminate|].
  destruct (raised (body a)) as [e0|] eqn:Ha; [apply Hb|].
  exact IH.
Qed.

Lemma process_match_plain (h : Header) (qs : list Quote) (cutoff : Q) :
  stops_plain (process_match h qs cutoff).
Proof.
  unfold process_match.
  destruct (List.length (dict_keys (sort_all (collect qs))) <? 2)%nat;
    [intros e; discriminate|].
  destruct (best_total _ _) as [total|e0] eqn:Hb.
  - destruct (Qle_bool 1 total); [intros e; discriminate|].
    destruct (bookmaker_options _ _) as [options|e1] eqn:Ho.
    + apply gen_for_plain. intros c. apply evaluate_plain.
    + intros e [= <-]. revert Ho. unfold bookmaker_options.
      apply raises_plain_mapM_all. intros n. apply dict_getitem_plain.
  - intros e [= <-]. revert Hb. unfold best_total.
    apply raises_plain_bind; [apply best_prices_plain | intros b].
    apply implied_total_plain.
Qed.

Hypothesis int_of_str_plain : forall s, raises_plain (int_of_str E s).

Lemma py_int_plain (v : value) : raises_plain (py_int E v).
Proof. destruct v; simpl; try plain_leaf. apply int_of_str_plain. Qed.

Lemma process_record_plain inc cutoff (m : value) (w : world) :
  stops_plain (fst (process_record E inc cutoff m w)).
Proof.
  unfold process_record.
  match goal with |- context [match ?r with Ok _ => _ | Raise _ => _ end] =>
    assert (Hr : raises_plain r); [|destruct r as [start_time|e0]]
  end.
  { apply raises_plain_bind; [apply getitem_plain | intros c].
    apply py_int_plain. }
  2:{ intros e [= <-]. now apply Hr. }
  clear Hr.
  destruct (if negb inc
            then let '(now, w0) := time_time E w in
                 (Qltb (inject_Z start_time) now, w0)
            else (false, w)) as [started w1].
  destruct started; [intros e; discriminate|].
  match goal with |- context [match ?r with Ok _ => _ | Raise _ => _ end] =>
    assert (Hr : raises_plain r); [|destruct r as [[home away]|e0]]
  end.
  { apply raises_plain_bind; [apply getitem_plain | intros home].
    apply raises_plain_bind; [apply getitem_plain | intros away].
    plain_leaf. }
  2:{ intros e [= <-]. now apply Hr. }
  clear Hr.
  destruct (time_time E w1) as [now w2].
  match goal with |- context [match ?r with Ok _ => _ | Raise _ => _ end] =>
    assert (Hr : raises_plain r); [|destruct r as [[league qs]|e0]]
  end.
  { apply raises_plain_bind; [apply getitem_plain | intros league].
    apply raises_plain_bind; [apply getitem_plain | intros bookmakers].
    apply raises_plain_bind; [apply read_quotes_plain | intros qs].
    plain_leaf. }
  2:{ intros e [= <-]. now apply Hr. }
  apply process_match_plain.
Qed.

Lemma process_records_plain inc cutoff (ms : list value) :
  forall w, stops_plain (fst (process_records E inc cutoff ms w)).
Proof.
  induction ms as [|m rest IH]; intros w; cbn [process_records];
    [intros e; discriminate|].
  pose proof (process_record_plain inc cutoff m w) as Hm.
  destruct (process_record E inc cutoff m w) as [g w1]. simpl in Hm.
  destruct (raised g) as [e0|] eqn:Hg; [exact Hm|].
  specialize (IH w1).
  destruct (process_records E inc cutoff rest w1) as [g' w2]. simpl in *.
  unfold gen_seq. rewrite Hg. exact IH.
Qed.

Lemma chain_from_iterable_plain (results : list value) :
  stops_plain (chain_from_iterable results).
Proof.
  induction results as [|r rest IH]; cbn [chain_from_iterable];
    [intros e; discriminate|].
  destruct (py_iter r) as [l|e0] eqn:Hr; [exact IH|].
  intros e [= <-]. now apply (@py_iter_plain r).
Qed.

Lemma process_data_plain (matches : gen value) inc cutoff (w : world) :
  stops_plain matches ->
  stops_plain (fst (process_data E matches inc cutoff w)).
Proof.
  intros Hm. unfold process_data.
  pose proof (process_records_plain inc cutoff (yielded matches) w) as Hr.
  destruct (process_records E inc cutoff (yielded matches) w) as [g w1].
  simpl in *. unfold gen_seq.
  destruct (raised g) as [e0|] eqn:Hg; [exact Hr|exact Hm].
Qed.

Lemma exn_str_plain (e : exn) : raises_plain (exn_str E e).
Proof.
  assert (H : forall msg r, raises_plain (api_str E msg r)).
  { intros msg r. unfold api_str.
    apply raises_plain_bind;
      [unfold json; destruct (body r); plain_leaf | intros j].
    apply raises_plain_bind; [apply getitem_plain | intros m; plain_leaf]. }
  destruct e; simpl; try apply H; plain_leaf.
Qed.

Lemma plain_is_printable (e : exn) :
  exn_response e = None -> exists s, exn_str E e = Ok s.
Proof. destruct e; simpl; try discriminate; intros _; eauto. Qed.

Lemma fetch_result_plain (key region sport : string) :
  raises_plain (fetch_result E key region sport).
Proof.
  unfold fetch_result, fetch_sport_data.
  destruct (get_data E key sport region world0) as [[v|e0] w1];
    [plain_leaf|].
  pose proof (exn_str_plain e0) as Hs.
  destruct (exn_str E e0) as [s|e1]; [plain_leaf|].
  intros e [= <-]. now apply Hs.
Qed.

Lemma fetch_and_scan_plain (key region : string) (cutoff : Q)
    (sports : list string) (w : world) :
  raises_plain (fst (fetch_and_scan E key region cutoff sports w)).
Proof.
  rewrite fetch_and_scan_result.
  destruct (mapM (fun r => r) (map (fetch_result E key region) sports))
    as [results|e0] eqn:Hf.
  - pose proof (@process_data_plain (scanned_entries results) true cutoff w)
      as Hp.
    unfold list_of_gen.
    destruct (raised (fst (process_data E (scanned_entries results) true
                             cutoff w))) as [e1|] eqn:Hg; [|plain_leaf].
    intros e [= <-]. apply Hp; [|exact Hg].
    unfold scanned_entries, gen_filter. simpl.
    exact (chain_from_iterable_plain results).
  - intros e [= <-]. revert Hf. apply raises_plain_mapM.
    apply Forall_forall. intros r Hin. apply in_map_iff in Hin.
    destruct Hin as [sport [<- _]]. apply fetch_result_plain.
Qed.
End Plain.

(** X19.  When the listing of the sports is answered with a 4xx or 5xx
    status, what the two workers emit depends on the body of that answer.
    If the body is JSON with a ["message"], each emits [error] with a
    text made of it.  If it is not (no JSON, no ["message"], not a dict),
    formatting the exception raises inside the [except] clause:
    [SportsLoaderWorker.run] emits neither [sports_loaded] nor [error],
    only the two statuses and [finished], and [ArbitrageWorker.run]
    without a selection emits neither [result] nor [error]; the second
    exception leaves [run]. *)
Theorem unreadable_listing_failure_is_silent (E : env) (key region : string)
    (cutoff : Q) (w : world) (r : response) :
  requests_get E (fst (sports_request E key)) (snd (sports_request E key))
  = Ok r ->
  (400 <= status_code r < 600)%Z ->
  match bind (json r) (fun j => getitem j "message") with
  | Ok m =>
      exists text,
        exn_str E (handle_faulty_response r) = Ok text /\
        fst (SportsLoaderWorker_run E key w)
        = ([sig_status "Loading available sports..."; sig_error text;
            sig_status "Sports loaded"; sig_finished], None) /\
        fst (ArbitrageWorker_run E key region cutoff None w)
        = ([sig_status "Getting available sports..."; sig_error text;
            sig_finished], None)
  | Raise e' =>
      fst (SportsLoaderWorker_run E key w)
      = ([sig_status "Loading available sports...";
          sig_status "Sports loaded"; sig_finished], Some e') /\
      fst (ArbitrageWorker_run E key region cutoff None w)
      = ([sig_status "Getting available sports..."; sig_finished], Some e')
  end.
Proof.
  intros Hreq Hst.
  assert (Hok : ok r = false).
  { unfold ok. rewrite negb_false_iff, andb_true_iff.
    rewrite Z.leb_le, Z.ltb_lt. exact Hst. }
  pose proof (get_sports_result E key w) as Hg.
  rewrite Hreq, Hok in Hg.
  unfold SportsLoaderWorker_run, ArbitrageWorker_run.
  rewrite get_arbitrage_opportunities_eq.
  destruct (get_sports E key w) as [[sports|e] w1]; simpl in Hg;
    [discriminate|].
  injection Hg as ->.
  assert (Hs : exn_str E (handle_faulty_response r)
               = bind (bind (json r) (fun j => getitem j "message"))
                   (fun m => Ok ("('" ++ match handle_faulty_response r with
                                         | APIException msg _
                                         | AuthenticationException msg _
                                         | RateLimitException msg _ => msg
                                         | _ => ""
                                         end
                                 ++ "', '" ++ format_value E m ++ "')")%string)).
  { unfold handle_faulty_response.
    destruct (status_code r =? 401)%Z; [|destruct (status_code r =? 429)%Z];
      simpl; unfold api_str; now destruct (json r). }
  destruct (bind (json r) (fun j => getitem j "message")) as [m|e'];
    simpl in Hs; rewrite Hs.
  - eexists. split; [reflexivity|]. split; reflexivity.
  - split; reflexivity.
Qed.

Lemma unreadable_listing_failure_is_silent_witness :
  fst (SportsLoaderWorker_run
         {| requests_get := fun _ _ => Ok {| status_code := 502; body := None |};
            quote := fun s => s;
            clock := fun _ => 0;
            repr := fun _ => "?"%string;
            int_of_str := fun _ => Raise (ValueError "invalid literal") |}
         "k" world0)
  = ([sig_status "Loading available sports...";
      sig_status "Sports loaded"; sig_finished],
     Some (JSONDecodeError "Expecting value")) /\
  fst (ArbitrageWorker_run
         {| requests_get := fun _ _ => Ok {| status_code := 502; body := None |};
            quote := fun s => s;
            clock := fun _ => 0;
            repr := fun _ => "?"%string;
            int_of_str := fun _ => Raise (ValueError "invalid literal") |}
         "k" "eu" 0 None world0)
  = ([sig_status "Getting available sports..."; sig_finished],
     Some (JSONDecodeError "Expecting value")).
Proof.
  apply (@unreadable_listing_failure_is_silent
           {| requests_get := fun _ _ => Ok {| status_code := 502; body := None |};
              quote := fun s => s;
              clock := fun _ => 0;
              repr := fun _ => "?"%string;
              int_of_str := fun _ => Raise (ValueError "invalid literal") |}
           "k"%string "eu"%string 0 world0
           {| status_code := 502; body := None |} eq_refl).
  simpl. lia.
Defined.

(** X20.  A search started with a selection of sports always reports:
    [ArbitrageWorker.run] emits the status, then [result] with the list
    [get_arbitrage_opportunities] returned, or [error] with the text of
    the exception it raised, then [finished], and no exception leaves
    [run].  ([int] is taken to raise no exception of the API classes.) *)
Theorem selected_search_always_reports (E : env) (key region : string)
    (cutoff : Q) (sport : string) (sports : list string) (w : world) :
  (forall s e, int_of_str E s = Raise e -> exn_response e = None) ->
  exists report,
    fst (ArbitrageWorker_run E key region cutoff (Some (sport :: sports)) w)
    = ([sig_status "Getting available sports..."; report; sig_finished], None) /\
    match fst (get_arbitrage_opportunities E key region cutoff
                 (Some (sport :: sports)) w) with
    | Ok opportunities => report = sig_result opportunities
    | Raise e => exists text, exn_str E e = Ok text /\ report = sig_error text
    end.
Proof.
  intros Hint. unfold ArbitrageWorker_run.
  pose proof (@fetch_and_scan_plain E Hint key region cutoff
                (sport :: sports) w) as Hp.
  rewrite get_arbitrage_opportunities_eq.
  destruct (fetch_and_scan E key region cutoff (sport :: sports) w)
    as [[opportunities|e] w1]; simpl in *.
  - eexists. split; reflexivity.
  - destruct (@plain_is_printable E e (Hp e eq_refl)) as [text Ht].
    rewrite Ht. exists (sig_error text). split; [reflexivity|].
    now exists text.
Qed.

Lemma selected_search_always_reports_witness :
  exists report,
    fst (ArbitrageWorker_run example_env "k" "eu" 0
           (Some ["tennis_wta"; "soccer_epl"]%string) world0)
    = ([sig_status "Getting available sports..."; report; sig_finished], None) /\
    match fst (get_arbitrage_opportunities example_env "k" "eu" 0
                 (Some ["tennis_wta"; "soccer_epl"]%string) world0) with
    | Ok opportunities => report = sig_result opportunities
    | Raise e =>
        exists text, exn_str example_env e = Ok text /\ report = sig_error text
    end.
Proof.
  apply (@selected_search_always_reports example_env "k"%string "eu"%string 0
           "tennis_wta"%string ["soccer_epl"%string] world0).
  intros s e. simpl. intros [= <-]. reflexivity.
Defined.

(* ================================================================== *)
(** * The cutoff *)
(* ================================================================== *)

Section Cutoff.
Variable E : env.
Variables c1 c2 : Q.
Hypothesis Hc : c1 <= c2.

Lemma gen_filter_seq {A} (p : A -> bool) (g g' : gen A) :
  gen_filter p (gen_seq g g') = gen_seq (gen_filter p g) (gen_filter p g').
Proof.
  unfold gen_seq, gen_filter. simpl.
  destruct (raised g) eqn:Hg; simpl; [now rewrite Hg|]. now rewrite filter_app.
Qed.

Lemma gen_filter_for {A B} (p : B -> bool) (l : list A)
    (body body' : A -> gen B) :
  (forall a, body' a = gen_filter p (body a)) ->
  gen_for l body' = gen_filter p (gen_for l body).
Proof.
  intros Hb. induction l as [|a l IH]; cbn [gen_for]; [reflexivity|].
  rewrite Hb, IH. unfold gen_filter at 1. cbn [raised].
  destruct (raised (body a)) eqn:Ha;
    [unfold gen_filter; now rewrite Ha|].
  unfold gen_filter. simpl. now rewrite filter_app.
Qed.

Lemma is_arbitrage_cutoff (t : Q) :
  is_arbitrage c2 t = is_arbitrage c1 t && Qle_bool c2 (1 - t).
Proof.
  unfold is_arbitrage.
  destruct (Qltb t 1), (Qltb 0 t); simpl; try reflexivity.
  destruct (Qle_bool c2 (1 - t)) eqn:H2; [|now rewrite andb_false_r].
  rewrite andb_true_r. symmetry. apply Qle_bool_iff.
  apply Qle_bool_iff in H2. now apply Qle_trans with c2.
Qed.

Lemma evaluate_cutoff h names (combination : list candidate) :
  evaluate h names c2 combination
  = gen_filter (meets c2) (evaluate h names c1 combination).
Proof.
  unfold evaluate.
  destruct (bind (zip_dict names combination (seq 0 (List.length names)) [])
              _) as [[best_odds t]|e]; [|reflexivity].
  rewrite is_arbitrage_cutoff.
  destruct (is_arbitrage c1 t); simpl; [|reflexivity].
  unfold gen_filter, gen_yield, meets. simpl.
  now destruct (Qle_bool c2 (1 - t)).
Qed.

Lemma process_match_cutoff h qs :
  process_match h qs c2 = gen_filter (meets c2) (process_match h qs c1).
Proof.
  unfold process_match.
  destruct (List.length (dict_keys (sort_all (collect qs))) <? 2)%nat;
    [reflexivity|].
  destruct (best_total _ _) as [t|e]; [|reflexivity].
  destruct (Qle_bool 1 t); [reflexivity|].
  destruct (bookmaker_options _ _) as [options|e]; [|reflexivity].
  apply gen_filter_for. intros c. apply evaluate_cutoff.
Qed.

Lemma process_record_cutoff inc (m : value) (w : world) :
  process_record E inc c2 m w
  = (gen_filter (meets c2) (fst (process_record E inc c1 m w)),
     snd (process_record E inc c1 m w)).
Proof.
  unfold process_record.
  destruct (bind (getitem m "commence_time") _) as [start_time|e];
    [|reflexivity].
  destruct (if negb inc
            then let '(now, w0) := time_time E w in
                 (Qltb (inject_Z start_time) now, w0)
            else (false, w)) as [started w1].
  destruct started; [reflexivity|].
  destruct (bind (getitem m "home_team") _) as [[home away]|e];
    [|reflexivity].
  destruct (time_time E w1) as [now w2].
  destruct (bind (getitem m "sport_key") _) as [[league qs]|e];
    [|reflexivity].
  simpl. now rewrite process_match_cutoff.
Qed.

Lemma process_records_cutoff inc (ms : list value) :
  forall w,
    process_records E inc c2 ms w
    = (gen_filter (meets c2) (fst (process_records E inc c1 ms w)),
       snd (process_records E inc c1 ms w)).
Proof.
  induction ms as [|m rest IH]; intros w; cbn [process_records];
    [reflexivity|].
  rewrite process_record_cutoff.
  destruct (process_record E inc c1 m w) as [g w1]. cbn [fst snd].
  unfold gen_filter at 1. cbn [raised].
  destruct (raised g) as [e|] eqn:Hg; [reflexivity|].
  rewrite IH.
  destruct (process_records E inc c1 rest w1) as [g' w2]. cbn [fst snd].
  now rewrite gen_filter_seq.
Qed.

Lemma process_data_cutoff (matches : gen value) inc (w : world) :
  process_data E matches inc c2 w
  = (gen_filter (meets c2) (fst (process_data E matches inc c1 w)),
     snd (process_data E matches inc c1 w)).
Proof.
  unfold process_data. rewrite process_records_cutoff.
  destruct (process_records E inc c1 (yielded matches) w) as [g w1].
  cbn [fst snd]. now rewrite gen_filter_seq.
Qed.

Lemma fetch_and_scan_cutoff (key region : string) (sports : list string)
    (w : world) :
  fetch_and_scan E key region c2 sports w
  = (match fst (fetch_and_scan E key region c1 sports w) with
     | Ok opportunities => Ok (filter (meets c2) opportunities)
     | Raise e => Raise e
     end,
     snd (fetch_and_scan E key region c1 sports w)).
Proof.
  unfold fetch_and_scan.
  destruct (run_all (fetch_sport_data E)
              (map (fun sport => (key, sport, region)) sports) w) as [rs w1].
  destruct (mapM (fun r => r) rs) as [results|e]; [|reflexivity].
  rewrite process_data_cutoff.
  destruct (process_data E (scanned_entries results) true c1 w1) as [g w2].
  cbn [fst snd]. unfold list_of_gen, gen_filter. simpl.
  now destruct (raised g).
Qed.
End Cutoff.

(** X21.  Raising the cutoff only removes opportunities: with [c1 <= c2],
    a search with cutoff [c2] sends the same requests, prints the same
    lines and raises the same exception as the search with cutoff [c1],
    and when that one returns a list, it returns, in the same order, the
    opportunities of that list with [1 - total_implied_odds >= c2]. *)
Theorem raising_the_cutoff_filters (E : env) (key region : string)
    (c1 c2 : Q) (selected_sports : option (list string)) (w : world) :
  c1 <= c2 ->
  get_arbitrage_opportunities E key region c2 selected_sports w
  = (match fst (get_arbitrage_opportunities E key region c1 selected_sports w)
     with
     | Ok opportunities => Ok (filter (meets c2) opportunities)
     | Raise e => Raise e
     end,
     snd (get_arbitrage_opportunities E key region c1 selected_sports w)).
Proof.
  intros Hc. rewrite !get_arbitrage_opportunities_eq.
  destruct selected_sports as [[|sport sports]|];
    try (destruct (get_sports E key w) as [[sports|e] w1]; [|reflexivity]);
    now apply fetch_and_scan_cutoff.
Qed.

Lemma raising_the_cutoff_filters_witness :
  get_arbitrage_opportunities example_env "k" "eu" (5 # 100)
    (Some ["soccer_epl"]%string) world0
  = (match fst (get_arbitrage_opportunities example_env "k" "eu" 0
                  (Some ["soccer_epl"]%string) world0)
     with
     | Ok opportunities => Ok (filter (meets (5 # 100)) opportunities)
     | Raise e => Raise e
     end,
     snd (get_arbitrage_opportunities example_env "k" "eu" 0
            (Some ["soccer_epl"]%string) world0)).
Proof.
  apply (@raising_the_cutoff_filters example_env "k"%string "eu"%string
           0 (5 # 100) (Some ["soccer_epl"%string]) world0).
  vm_compute. discriminate.
Defined.
